(** * Rotation of GitHub deploy keys and access tokens (concourse-github-lambda)

    A shallow embedding of the Go packages [template], [handler], [manager]
    and [dynamodb] of the repository:
    - [pkg/template]: the path and title templates, with [strings.ReplaceAll]
      and the field-action subset of Go's [text/template];
    - [pkg/handler]: the per-team lambda handler [New], written over an
      abstract backend (the [Manager] methods and the [repo.Lister]) in a
      state monad that records every backend call in a trace;
    - [pkg/manager]: [WriteSecret] and [GetLastUpdated] over a model of the
      Secrets Manager API, with RFC 3339 formatting and parsing of time;
    - [pkg/dynamodb]: [DynamoDBReposLister.List]. *)

From stdpp Require Import base gmap strings list.
From Stdlib Require Import ZArith String Ascii Bool Lia.

Open Scope string_scope.
Open Scope Z_scope.

(* ------------------------------------------------------------------ *)
(** ** Go errors and results *)

(** A Go [error]: either an [awserr.Error] carrying an AWS error code, a
    plain error, or an error wrapped by [fmt.Errorf("...: %w", err)]. *)
Inductive go_error :=
| AwsError (code : string) (message : string)
| PlainError (message : string)
| WrappedError (context : string) (inner : go_error).

(** A Go [(value, error)] pair, where exactly one side is meaningful. *)
Inductive result (A : Type) :=
| Ok (a : A)
| Err (e : go_error).
Arguments Ok {A} a.
Arguments Err {A} e.

Definition is_ok {A} (r : result A) : bool :=
  match r with Ok _ => true | Err _ => false end.

Definition ErrCodeResourceNotFoundException : string := "ResourceNotFoundException".
Definition ErrCodeResourceExistsException : string := "ResourceExistsException".

(* ------------------------------------------------------------------ *)
(** ** [strings.ReplaceAll] *)

Fixpoint string_drop (n : nat) (s : string) : string :=
  match n, s with
  | O, _ => s
  | S n', String _ r => string_drop n' r
  | S _, EmptyString => EmptyString
  end.

(** Replacement of every occurrence of a non-empty [old], scanning left to
    right; [fuel] bounds the number of steps (the length of [s] suffices). *)
Fixpoint replace_nonempty (fuel : nat) (s old new : string) : string :=
  match fuel with
  | O => s
  | S f =>
      match s with
      | EmptyString => EmptyString
      | String c r =>
          if String.prefix old s
          then new ++ replace_nonempty f (string_drop (String.length old) s) old new
          else String c (replace_nonempty f r old new)
      end
  end.

(** With an empty [old], Go inserts [new] before every character and at the
    end of the string. *)
Fixpoint interleave (new s : string) : string :=
  match s with
  | EmptyString => new
  | String c r => new ++ String c (interleave new r)
  end.

(** [strings.ReplaceAll(s, old, new)]. *)
Definition ReplaceAll (s old new : string) : string :=
  if String.eqb old new then s
  else if String.eqb old "" then interleave new s
  else replace_nonempty (String.length s) s old new.

(* ------------------------------------------------------------------ *)
(** ** Package [template] *)

Record Template := MkTemplate {
  Team : string;
  Owner : string;
  Repository : string;
  TemplateText : string
}.

(** [template.NewTemplate]: the repository name is sanitised, since
    Concourse treats dots as delimiters. *)
Definition NewTemplate (team repository owner template : string) : Template :=
  {| Team := team;
     Owner := owner;
     Repository := ReplaceAll repository "." "-";
     TemplateText := template |}.

(** [template.NewTemplateWithoutRepository]. *)
Definition NewTemplateWithoutRepository (team owner template : string) : Template :=
  {| Team := team; Owner := owner; Repository := ""; TemplateText := template |}.

(** Parsed template: text and field actions [{{.Field}}]. This is the part of
    Go's [text/template] language the path and title templates use; any other
    action is reported here as a parse error. *)
Inductive tnode :=
| TText (s : string)
| TField (f : string).

Inductive lex_mode := InText | InAction.

Fixpoint ltrim (s : string) : string :=
  match s with
  | String " "%char r => ltrim r
  | _ => s
  end.

Definition is_letter (c : ascii) : bool :=
  let n := nat_of_ascii c in
  ((65 <=? n) && (n <=? 90))%nat || ((97 <=? n) && (n <=? 122))%nat
  || (n =? 95)%nat.

Definition is_digit (c : ascii) : bool :=
  let n := nat_of_ascii c in ((48 <=? n) && (n <=? 57))%nat.

Fixpoint take_ident (s : string) : string * string :=
  match s with
  | String c r =>
      if is_letter c || is_digit c
      then let '(i, t) := take_ident r in (String c i, t)
      else (EmptyString, s)
  | EmptyString => (EmptyString, EmptyString)
  end.

Fixpoint all_spaces (s : string) : bool :=
  match s with
  | EmptyString => true
  | String c r => Ascii.eqb c " "%char && all_spaces r
  end.

(** The field named by an action body such as [" .Team "]. *)
Definition field_of_action (a : string) : option string :=
  match ltrim a with
  | String "."%char r =>
      match take_ident r with
      | (String c i, t) =>
          if is_letter c && all_spaces t then Some (String c i) else None
      | _ => None
      end
  | _ => None
  end.

Definition text_node (acc : string) (ns : list tnode) : list tnode :=
  if String.eqb acc "" then ns else TText acc :: ns.

Definition tpl_parse_error (msg : string) : go_error :=
  PlainError ("template: path: " ++ msg).

Fixpoint parse_nodes (s : string) (mode : lex_mode) (acc : string)
  : result (list tnode) :=
  match mode, s with
  | InText, EmptyString => Ok (text_node acc [])
  | InText, String "{"%char (String "{"%char r) =>
      match parse_nodes r InAction "" with
      | Ok ns => Ok (text_node acc ns)
      | Err e => Err e
      end
  | InText, String c r => parse_nodes r InText (acc ++ String c "")
  | InAction, EmptyString => Err (tpl_parse_error "unclosed action")
  | InAction, String "}"%char (String "}"%char r) =>
      match field_of_action acc with
      | Some f =>
          match parse_nodes r InText "" with
          | Ok ns => Ok (TField f :: ns)
          | Err e => Err e
          end
      | None => Err (tpl_parse_error ("unexpected action " ++ acc))
      end
  | InAction, String c r => parse_nodes r InAction (acc ++ String c "")
  end.

(** Field lookup on the [Template] struct; an unknown field is an execution
    error ("can't evaluate field"). *)
Definition field_value (p : Template) (f : string) : option string :=
  if String.eqb f "Team" then Some (Team p)
  else if String.eqb f "Owner" then Some (Owner p)
  else if String.eqb f "Repository" then Some (Repository p)
  else if String.eqb f "Template" then Some (TemplateText p)
  else None.

Fixpoint execute (ns : list tnode) (p : Template) : result string :=
  match ns with
  | [] => Ok ""
  | TText s :: rest =>
      match execute rest p with Ok o => Ok (s ++ o) | Err e => Err e end
  | TField f :: rest =>
      match field_value p f with
      | None => Err (PlainError ("template: path: can't evaluate field " ++ f))
      | Some v => match execute rest p with Ok o => Ok (v ++ o) | Err e => Err e end
      end
  end.

(** [Template.String] (pointer receiver): parse with [missingkey=error], then execute. *)
Definition template_String (p : Template) : result string :=
  match parse_nodes (TemplateText p) InText "" with
  | Err e => Err e
  | Ok ns => execute ns p
  end.

(* ------------------------------------------------------------------ *)
(** ** Package [handler]: the per-team rotation engine *)

(** [repo.Repo]. *)
Record Repo := MkRepo {
  repo_name : string;
  repo_read_only : bool
}.

(** The fields of [github.Key] the handler reads: [ID], [Title] and the
    optional [ReadOnly] flag ([*bool], [None] for a nil pointer). *)
Record Key := MkKey {
  key_id : Z;
  key_title : string;
  key_read_only : option bool
}.

(** The collaborators of the handler: the [Manager] methods, the
    [repo.Lister] and the clock. Queries ([List], [ListKeys],
    [GetLastUpdated], [time.Now]) read the world; the other calls may change
    it. Time is in Unix seconds (UTC). *)
Record Backend := MkBackend {
  World : Type;
  b_now : World -> Z;
  b_sleep : Z -> World -> World;
  b_create_access_token : string -> World -> result string * World;
  b_write_secret : string -> string -> World -> result unit * World;
  b_list_repos : World -> result (list Repo);
  b_list_keys : string -> string -> World -> result (list Key);
  b_get_last_updated : string -> World -> result Z;
  b_generate_key_pair : string -> World -> result (string * string) * World;
  b_create_key : string -> string -> bool -> string -> string -> World -> result unit * World;
  b_delete_key : string -> string -> Z -> World -> result unit * World
}.

(** One entry of the trace: a backend call with its arguments and whether
    it succeeded, a sleep, or a logged warning. *)
Inductive Event :=
| ECreateAccessToken (owner : string) (ok : bool)
| EWriteSecret (name value : string) (ok : bool)
| EListRepos (ok : bool)
| EListKeys (owner repo : string) (ok : bool)
| EGetLastUpdated (name : string) (ok : bool)
| EGenerateKeyPair (title : string) (ok : bool)
| ECreateKey (owner repo : string) (read_only : bool) (title public : string) (ok : bool)
| ESleep (seconds : Z)
| EDeleteKey (owner repo : string) (id : Z) (ok : bool)
| EWarn (msg : string).

(** Calls that change something upstream. *)
Definition is_mutating (ev : Event) : bool :=
  match ev with
  | ECreateAccessToken _ _ | EWriteSecret _ _ _ | EGenerateKeyPair _ _
  | ECreateKey _ _ _ _ _ _ | EDeleteKey _ _ _ _ => true
  | _ => false
  end.

Section Engine.
Context (B : Backend).
Local Abbreviation world := (World B).

(** State monad over the world, writing the trace of calls. *)
Definition M (A : Type) : Type := world -> A * world * list Event.

Definition ret {A} (a : A) : M A := fun w => (a, w, []).

Definition bind {A C} (m : M A) (k : A -> M C) : M C :=
  fun w =>
    let '(a, w1, t1) := m w in
    let '(c, w2, t2) := k a w1 in
    (c, w2, (t1 ++ t2)%list).

Local Notation "x <- m ;; k" := (bind m (fun x => k))
  (at level 100, m at next level, right associativity).
Local Notation "m ;;; k" := (bind m (fun _ => k))
  (at level 100, right associativity).

Definition warn (msg : string) : M unit := fun w => (tt, w, [EWarn msg]).

Definition time_now : M Z := fun w => (b_now B w, w, []).

Definition time_sleep (s : Z) : M unit := fun w => (tt, b_sleep B s w, [ESleep s]).

Definition CreateAccessToken (owner : string) : M (result string) :=
  fun w => let '(r, w') := b_create_access_token B owner w in
           (r, w', [ECreateAccessToken owner (is_ok r)]).

Definition WriteSecret (name secret : string) : M (result unit) :=
  fun w => let '(r, w') := b_write_secret B name secret w in
           (r, w', [EWriteSecret name secret (is_ok r)]).

Definition List : M (result (list Repo)) :=
  fun w => let r := b_list_repos B w in (r, w, [EListRepos (is_ok r)]).

Definition ListKeys (owner repo : string) : M (result (list Key)) :=
  fun w => let r := b_list_keys B owner repo w in (r, w, [EListKeys owner repo (is_ok r)]).

Definition GetLastUpdated (name : string) : M (result Z) :=
  fun w => let r := b_get_last_updated B name w in (r, w, [EGetLastUpdated name (is_ok r)]).

Definition GenerateKeyPair (title : string) : M (result (string * string)) :=
  fun w => let '(r, w') := b_generate_key_pair B title w in
           (r, w', [EGenerateKeyPair title (is_ok r)]).

Definition CreateKey (owner repo : string) (ro : bool) (title public : string)
  : M (result unit) :=
  fun w => let '(r, w') := b_create_key B owner repo ro title public w in
           (r, w', [ECreateKey owner repo ro title public (is_ok r)]).

Definition DeleteKey (owner repo : string) (id : Z) : M (result unit) :=
  fun w => let '(r, w') := b_delete_key B owner repo id w in
           (r, w', [EDeleteKey owner repo id (is_ok r)]).

(** [key.ReadOnly != nil && *key.ReadOnly != repo.ReadOnly]. *)
Definition read_only_changed (key : Key) (repo : Repo) : bool :=
  match key_read_only key with
  | Some ro => negb (Bool.eqb ro (repo_read_only repo))
  | None => false
  end.

(** [e, ok := err.(awserr.Error); ok && e.Code() == ErrCodeResourceNotFoundException]. *)
Definition is_not_found (e : go_error) : bool :=
  match e with
  | AwsError code _ => String.eqb code ErrCodeResourceNotFoundException
  | _ => false
  end.

(** [time.Now().AddDate(0, 0, -7)] is seven days of 86400 seconds in UTC. *)
Definition seven_days : Z := 7 * 86400.

(** Outcome of the loop over the repository's keys: [continue Loop] (skip
    the repository) or fall through to the rotation with [oldKey]. *)
Inductive decision :=
| Skip
| Rotate (oldKey : option Key).

(** The inner [for _, key := range keys] loop of the handler. *)
Fixpoint scan_keys (keyPath title : string) (repo : Repo) (oldKey : option Key)
  (keys : list Key) : M decision :=
  match keys with
  | [] => ret (Rotate oldKey)
  | key :: rest =>
      if String.eqb (key_title key) title then
        if read_only_changed key repo then ret (Rotate (Some key))
        else
          r <- GetLastUpdated keyPath ;;
          match r with
          | Err e =>
              if is_not_found e then ret (Rotate (Some key))
              else warn "failed to get last updated for secret" ;;; ret (Rotate (Some key))
          | Ok updated =>
              t <- time_now ;;
              if t - seven_days <? updated then ret Skip
              else scan_keys keyPath title repo (Some key) rest
          end
      else scan_keys keyPath title repo oldKey rest
  end.

(** The statements after the key loop: generate, publish, persist, and
    delete the old key after a one second pause. *)
Definition rotate_key (org keyPath title : string) (repo : Repo)
  (oldKey : option Key) : M unit :=
  rp <- GenerateKeyPair title ;;
  match rp with
  | Err _ => warn "failed to generate new key pair"
  | Ok (private, public) =>
      rc <- CreateKey org (repo_name repo) (repo_read_only repo) title public ;;
      match rc with
      | Err _ => warn "failed to create key on github"
      | Ok _ =>
          rw <- WriteSecret keyPath private ;;
          match rw with
          | Err _ => warn "failed to write secret key"
          | Ok _ =>
              match oldKey with
              | None => ret tt
              | Some k =>
                  time_sleep 1 ;;;
                  rd <- DeleteKey org (repo_name repo) (key_id k) ;;
                  match rd with
                  | Err _ => warn "failed to delete old github key"
                  | Ok _ => ret tt
                  end
              end
          end
      end
  end.

(** The body of the [for _, repo := range repos] loop. *)
Definition process_repo (team org keyTemplate titleTemplate : string) (repo : Repo)
  : M unit :=
  match template_String (NewTemplate team (repo_name repo) org keyTemplate) with
  | Err _ => warn "failed to parse deploy key template"
  | Ok keyPath =>
      match template_String (NewTemplate team (repo_name repo) org titleTemplate) with
      | Err _ => warn "failed to parse github title template"
      | Ok title =>
          rk <- ListKeys org (repo_name repo) ;;
          match rk with
          | Err _ => warn "failed to list github keys"
          | Ok keys =>
              d <- scan_keys keyPath title repo None keys ;;
              match d with
              | Skip => ret tt
              | Rotate oldKey => rotate_key org keyPath title repo oldKey
              end
          end
      end
  end.

Fixpoint process_repos (team org keyTemplate titleTemplate : string)
  (repos : list Repo) : M unit :=
  match repos with
  | [] => ret tt
  | repo :: rest =>
      process_repo team org keyTemplate titleTemplate repo ;;;
      process_repos team org keyTemplate titleTemplate rest
  end.

(** [handler.New(manager, githubOrganisation, repoLister, tokenTemplate,
    keyTemplate, titleTemplate, logger)] applied to a team (by its name). *)
Definition New (githubOrganisation tokenTemplate keyTemplate titleTemplate : string)
  (team : string) : M (result unit) :=
  match template_String
          (NewTemplateWithoutRepository team githubOrganisation tokenTemplate) with
  | Err e =>
      warn "failed to parse token path template" ;;;
      ret (Err (WrappedError "parsing token path template" e))
  | Ok tokenPath =>
      rt <- CreateAccessToken githubOrganisation ;;
      match rt with
      | Err e =>
          warn "failed to create access token" ;;;
          ret (Err (WrappedError "creating access token" e))
      | Ok token =>
          rw <- WriteSecret tokenPath token ;;
          match rw with
          | Err e =>
              warn "failed to write access token" ;;;
              ret (Err (WrappedError "writing access token" e))
          | Ok _ =>
              rr <- List ;;
              match rr with
              | Err e =>
                  warn "failed to list repos" ;;;
                  ret (Err (WrappedError "listing repos" e))
              | Ok repos =>
                  process_repos team githubOrganisation keyTemplate titleTemplate repos ;;;
                  ret (Ok tt)
              end
          end
      end
  end.

End Engine.

(** A concrete backend for examples: the world is the clock, every
    mutating call succeeds, and the queries return fixed data. *)
Definition sim_backend (repos : list Repo) (keys : list Key) (lookup : result Z)
  : Backend :=
  {| World := Z;
     b_now := fun w => w;
     b_sleep := fun s w => w + s;
     b_create_access_token := fun _ w => (Ok "token", w);
     b_write_secret := fun _ _ w => (Ok tt, w);
     b_list_repos := fun _ => Ok repos;
     b_list_keys := fun _ _ _ => Ok keys;
     b_get_last_updated := fun _ _ => lookup;
     b_generate_key_pair := fun _ w => (Ok ("private", "public"), w);
     b_create_key := fun _ _ _ _ _ w => (Ok tt, w);
     b_delete_key := fun _ _ _ w => (Ok tt, w) |}.

(** The first listed key whose title equals [title]: the key the loop of
    the handler stops at. *)
Definition first_match (title : string) (keys : list Key) : option Key :=
  List.find (fun k => String.eqb (key_title k) title) keys.

(** Events the key loop may produce. *)
Definition scan_event (ev : Event) : bool :=
  match ev with
  | EGetLastUpdated _ _ | EWarn _ => true
  | _ => false
  end.

(* ------------------------------------------------------------------ *)
(** ** Package [dynamodb]: [DynamoDBReposLister.List] *)

(** A Go call either returns or panics. *)
Inductive outcome (A : Type) :=
| Returned (r : result A)
| Panicked (msg : string).
Arguments Returned {A} r.
Arguments Panicked {A} msg.

(** The loop over [scanOutput.Items]: each item is unmarshalled into a
    [tableItem] (a failure panics) and becomes a repository. *)
Fixpoint repos_of_items {Item : Type} (UnmarshalMap : Item -> result string)
  (items : list Item) : outcome (list Repo) :=
  match items with
  | [] => Returned (Ok [])
  | item :: rest =>
      match UnmarshalMap item with
      | Err e => Panicked "Failed to unmarshal Record"
      | Ok repoName =>
          let repo := {| repo_name := repoName;
                         (* Currently all seem to be set to 'false', even for archived repos. *)
                         repo_read_only := false |} in
          match repos_of_items UnmarshalMap rest with
          | Returned (Ok repos) => Returned (Ok (repo :: repos))
          | other => other
          end
      end
  end.

(** [List] given the result of the single [Scan] call and the SDK's
    [UnmarshalMap] into [tableItem]. *)
Definition DynamoDBReposLister_List {Item : Type} (UnmarshalMap : Item -> result string)
  (scanOutput : result (list Item)) : outcome (list Repo) :=
  match scanOutput with
  | Err e => Returned (Err (WrappedError "scanning DynamoDB table" e))
  | Ok items => repos_of_items UnmarshalMap items
  end.

(* ------------------------------------------------------------------ *)
(** ** Package [time]: RFC 3339 in UTC *)

(** Times are Unix seconds in UTC; [time.Now().UTC().Format(time.RFC3339)]
    drops the sub-second part, so the stamped value is a whole second. *)

Definition is_leap (y : Z) : bool :=
  (y mod 4 =? 0) && (negb (y mod 100 =? 0) || (y mod 400 =? 0)).

Definition days_in_year (y : Z) : Z := if is_leap y then 366 else 365.

(** [daysIn(month, year)]. *)
Definition days_in_month (y m : Z) : Z :=
  if m =? 2 then (if is_leap y then 29 else 28)
  else if (m =? 4) || (m =? 6) || (m =? 9) || (m =? 11) then 30
  else 31.

(** Leap years strictly before year [y]. *)
Definition leaps_before (y : Z) : Z := (y - 1) / 4 - (y - 1) / 100 + (y - 1) / 400.

(** Days from 1970-01-01 to January 1st of year [y]. *)
Definition days_before_year (y : Z) : Z :=
  365 * (y - 1970) + leaps_before y - leaps_before 1970.

Fixpoint days_before_month_nat (n : nat) (y : Z) : Z :=
  match n with
  | O => 0
  | S n' => days_before_month_nat n' y + days_in_month y (Z.of_nat (S n'))
  end.

(** Days of year [y] before the first of month [m]. *)
Definition days_before_month (y m : Z) : Z := days_before_month_nat (Z.to_nat (m - 1)) y.

(** Days from 1970-01-01 to the given date ([time.Date] in UTC). *)
Definition days_from_civil (y m d : Z) : Z :=
  days_before_year y + days_before_month y m + (d - 1).

Fixpoint year_back (fuel : nat) (y d : Z) : Z * Z :=
  match fuel with
  | O => (y, d)
  | S f => if d <? 0 then year_back f (y - 1) (d + days_in_year (y - 1)) else (y, d)
  end.

Fixpoint year_fwd (fuel : nat) (y d : Z) : Z * Z :=
  match fuel with
  | O => (y, d)
  | S f => if d <? days_in_year y then (y, d) else year_fwd f (y + 1) (d - days_in_year y)
  end.

Fixpoint month_fwd (fuel : nat) (y m d : Z) : Z * Z :=
  match fuel with
  | O => (m, d)
  | S f => if d <? days_in_month y m then (m, d) else month_fwd f y (m + 1) (d - days_in_month y m)
  end.

(** Date of the [n]-th day after 1970-01-01: year, month (1-12), day (1-31). *)
Definition civil_from_days (n : Z) : Z * Z * Z :=
  let '(y0, d0) := year_back (Z.to_nat (- n / 365) + 1) 1970 n in
  let '(y, doy) := year_fwd (Z.to_nat (d0 / 365) + 1) y0 d0 in
  let '(m, d) := month_fwd 11 y 1 doy in
  (y, m, d + 1).

Definition digit_char (d : Z) : ascii := ascii_of_nat (48 + Z.to_nat d).

Definition digit_val (c : ascii) : Z := Z.of_nat (nat_of_ascii c) - 48.

(** The loop of Go's [appendInt]: decimal digits, least significant first. *)
Fixpoint decimal_rev (fuel : nat) (u : Z) : list ascii :=
  match fuel with
  | O => [digit_char u]
  | S f => if u <? 10 then [digit_char u] else digit_char (u mod 10) :: decimal_rev f (u / 10)
  end.

(** [appendInt(b, x, width)] of package [time]: the decimal form of [x],
    left-padded with zeros to [width]. *)
Definition appendInt (x : Z) (width : nat) : string :=
  let ds := rev (decimal_rev 20 (Z.abs x)) in
  (if x <? 0 then "-" else "") ++
  string_of_list_ascii (repeat "0"%char (width - List.length ds) ++ ds)%list.

(** [t.UTC().Format(time.RFC3339)] (layout ["2006-01-02T15:04:05Z07:00"]). *)
Definition Format_RFC3339 (t : Z) : string :=
  let secs := t mod 86400 in
  let '(y, m, d) := civil_from_days (t / 86400) in
  appendInt y 4 ++ "-" ++ appendInt m 2 ++ "-" ++ appendInt d 2 ++ "T" ++
  appendInt (secs / 3600) 2 ++ ":" ++ appendInt (secs mod 3600 / 60) 2 ++ ":" ++
  appendInt (secs mod 60) 2 ++ "Z".

(** Go's [leadingInt]/[atoi] on a run of digits. *)
Definition digits_value (l : list ascii) : Z :=
  fold_left (fun v c => v * 10 + digit_val c) l 0.

(** [stdLongYear]: four digits. *)
Definition parse_year (s : string) : result (Z * string) :=
  match s with
  | String a (String b (String c (String d r))) =>
      if is_digit a && is_digit b && is_digit c && is_digit d
      then Ok (digits_value [a; b; c; d], r)
      else Err (PlainError "parsing time: cannot parse year")
  | _ => Err (PlainError "parsing time: cannot parse year")
  end.

(** [getnum(s, fixed)]: one or two digits, two when [fixed]. *)
Definition getnum (s : string) (fixed : bool) : result (Z * string) :=
  match s with
  | String a r =>
      if is_digit a then
        match r with
        | String b r' =>
            if is_digit b then Ok (digit_val a * 10 + digit_val b, r')
            else if fixed then Err (PlainError "parsing time: bad number")
            else Ok (digit_val a, r)
        | EmptyString =>
            if fixed then Err (PlainError "parsing time: bad number") else Ok (digit_val a, r)
        end
      else Err (PlainError "parsing time: bad number")
  | EmptyString => Err (PlainError "parsing time: bad number")
  end.

Definition expect (c : ascii) (s : string) : result string :=
  match s with
  | String a r => if Ascii.eqb a c then Ok r else Err (PlainError "parsing time: layout mismatch")
  | EmptyString => Err (PlainError "parsing time: layout mismatch")
  end.

Definition range_error (what : string) : go_error :=
  PlainError ("parsing time: " ++ what ++ " out of range").

(** [time.Parse(time.RFC3339, ds)] on the strings [GetLastUpdated] can pass
    it (those matched by its regular expression, which end in ["Z"]). *)
Definition Parse_RFC3339 (value : string) : result Z :=
  match parse_year value with Err e => Err e | Ok (year, r1) =>
  match expect "-" r1 with Err e => Err e | Ok r2 =>
  match getnum r2 true with Err e => Err e | Ok (month, r3) =>
  if (month <=? 0) || (12 <? month) then Err (range_error "month") else
  match expect "-" r3 with Err e => Err e | Ok r4 =>
  match getnum r4 true with Err e => Err e | Ok (day, r5) =>
  match expect "T" r5 with Err e => Err e | Ok r6 =>
  match getnum r6 false with Err e => Err e | Ok (hour, r7) =>
  if (hour <? 0) || (24 <=? hour) then Err (range_error "hour") else
  match expect ":" r7 with Err e => Err e | Ok r8 =>
  match getnum r8 true with Err e => Err e | Ok (min, r9) =>
  if (min <? 0) || (60 <=? min) then Err (range_error "minute") else
  match expect ":" r9 with Err e => Err e | Ok r10 =>
  match getnum r10 true with Err e => Err e | Ok (sec, r11) =>
  if (sec <? 0) || (60 <=? sec) then Err (range_error "second") else
  match expect "Z" r11 with Err e => Err e | Ok r12 =>
  if negb (String.eqb r12 "") then Err (PlainError "parsing time: extra text") else
  if (day <? 1) || (days_in_month year month <? day) then Err (range_error "day") else
  Ok (days_from_civil year month day * 86400 + hour * 3600 + min * 60 + sec)
  end end end end end end end end end end end end.

(** The first second of year 10000: RFC 3339 has four year digits, and
    [GetLastUpdated]'s regular expression matches only four. *)
Definition max_time : Z := 253402300800.

(* ------------------------------------------------------------------ *)
(** ** Package [manager]: [WriteSecret] and [GetLastUpdated] *)

(** The regular expression [\d{4}-\d{2}-\d{2}T\d{2}:\d{2}:\d{2}Z], one
    entry per character: [None] is [\d], [Some c] the literal [c]. *)
Definition timestamp_regexp : list (option ascii) :=
  [None; None; None; None; Some "-"%char; None; None; Some "-"%char; None; None;
   Some "T"%char; None; None; Some ":"%char; None; None; Some ":"%char; None; None;
   Some "Z"%char].

Fixpoint match_prefix (pat : list (option ascii)) (s : string) : bool :=
  match pat, s with
  | [], _ => true
  | p :: ps, String c r =>
      match p with None => is_digit c | Some a => Ascii.eqb c a end && match_prefix ps r
  | _ :: _, EmptyString => false
  end.

(** [re.FindString(s)]: the leftmost match, or [""] when there is none. *)
Fixpoint FindString (s : string) : string :=
  match s with
  | EmptyString => ""
  | String _ r =>
      if match_prefix timestamp_regexp s then substring 0 20 s else FindString r
  end.

(** A secret as the Secrets Manager API keeps it. *)
Record SecretEntry := MkSecretEntry {
  se_description : option string;
  se_value : option string
}.

(** [CreateSecret] with a name and a description only. *)
Definition CreateSecret (store : gmap string SecretEntry) (name description : string)
  : result unit * gmap string SecretEntry :=
  match store !! name with
  | Some _ => (Err (AwsError ErrCodeResourceExistsException "secret already exists"), store)
  | None => (Ok tt, <[name := MkSecretEntry (Some description) None]> store)
  end.

(** [UpdateSecret] of the description and the secret string. *)
Definition UpdateSecret (store : gmap string SecretEntry) (secretId description secret : string)
  : result unit * gmap string SecretEntry :=
  match store !! secretId with
  | None => (Err (AwsError ErrCodeResourceNotFoundException "secret not found"), store)
  | Some _ => (Ok tt, <[secretId := MkSecretEntry (Some description) (Some secret)]> store)
  end.

(** [DescribeSecret], returning the description. *)
Definition DescribeSecret (store : gmap string SecretEntry) (secretId : string)
  : result (option string) :=
  match store !! secretId with
  | None => Err (AwsError ErrCodeResourceNotFoundException "secret not found")
  | Some e => Ok (se_description e)
  end.

Definition StringValue (s : option string) : string :=
  match s with Some v => v | None => "" end.

Definition description_of (timestamp : string) : string :=
  "Github credentials for Concourse. Last updated: " ++ timestamp.

(** [Manager.WriteSecret] at time [now]. *)
Definition Manager_WriteSecret (store : gmap string SecretEntry) (now : Z) (name secret : string)
  : result unit * gmap string SecretEntry :=
  let timestamp := Format_RFC3339 now in
  let '(r, store1) := CreateSecret store name (description_of timestamp) in
  let update := UpdateSecret store1 name (description_of timestamp) secret in
  match r with
  | Ok _ => update
  | Err (AwsError code msg) =>
      if String.eqb code ErrCodeResourceExistsException then update
      else (Err (AwsError code msg), store1)
  | Err e => (Err (WrappedError "failed to convert error" e), store1)
  end.

(** [Manager.GetLastUpdated]. *)
Definition Manager_GetLastUpdated (store : gmap string SecretEntry) (name : string) : result Z :=
  match DescribeSecret store name with
  | Err e => Err e
  | Ok description =>
      let ds := FindString (StringValue description) in
      if String.eqb ds "" then
        Err (PlainError ("failed to find timestamp in description: " ++ StringValue description))
      else
        match Parse_RFC3339 ds with
        | Err e => Err (WrappedError "failed to parse timestamp" e)
        | Ok t => Ok t
        end
  end.

(** A string of the shape [GetLastUpdated]'s regular expression matches,
    followed by [rest]: the [ci] stand for the [\d] positions. *)
Definition timestamp_text (c1 c2 c3 c4 c5 c6 c7 c8 c9 c10 c11 c12 c13 c14 : ascii)
  (rest : string) : string :=
  String c1 (String c2 (String c3 (String c4 (String "-" (String c5 (String c6
  (String "-" (String c7 (String c8 (String "T" (String c9 (String c10 (String ":"
  (String c11 (String c12 (String ":" (String c13 (String c14 (String "Z" rest))))))))))))))))))).

(* ------------------------------------------------------------------ *)
(** ** Package [manager]: [GenerateKeyPair] *)

(** The EC2 calls of [GenerateKeyPair], in call order. *)
Inductive Ec2Event :=
| ECreateKeyPair (keyName : string) (ok : bool)
| EDeleteKeyPair (keyName : string).

(** [Manager.GenerateKeyPair]. The EC2 client ([CreateKeyPair] returning
    the key material, [DeleteKeyPair]) and the decoding libraries
    ([pem.Decode] giving the block's bytes, [x509.ParsePKCS1PrivateKey],
    [ssh.NewPublicKey] of the key's public half, [ssh.MarshalAuthorizedKey])
    are parameters. The result is Go's three return values. *)
Definition Manager_GenerateKeyPair {W PrivKey PubKey : Type}
  (CreateKeyPair : string -> W -> result (option string) * W)
  (DeleteKeyPair : string -> W -> result unit * W)
  (pem_Decode : string -> option string)
  (ParsePKCS1PrivateKey : string -> result PrivKey)
  (NewPublicKey : PrivKey -> result PubKey)
  (MarshalAuthorizedKey : PubKey -> string)
  (title : string) (w : W) : (string * string * option go_error) * W * list Ec2Event :=
  match CreateKeyPair title w with
  | (Err e, w1) => ("", "", Some e, w1, [ECreateKeyPair title false])
  | (Ok keyMaterial, w1) =>
      let privateKey := StringValue keyMaterial in
      let results :=
        match pem_Decode privateKey with
        | None => ("", "", Some (PlainError "failed to decode private key"))
        | Some blockBytes =>
            match ParsePKCS1PrivateKey blockBytes with
            | Err e => ("", "", Some e)
            | Ok key =>
                match NewPublicKey key with
                | Err e => ("", "", Some e)
                | Ok public => (privateKey, MarshalAuthorizedKey public, None)
                end
            end
        end in
      (* the deferred DeleteKeyPair runs on every return; its error is discarded *)
      let '(_, w2) := DeleteKeyPair title w1 in
      (results, w2, [ECreateKeyPair title true; EDeleteKeyPair title])
  end.

(* ------------------------------------------------------------------ *)
(** ** Example inputs *)

(** Two keys with the same title: a leftover after a failed deletion of
    the old key during a read-only change (old key listed first). *)
Definition ex_team : string := "platform".
Definition ex_org : string := "org".
Definition ex_key_template : string := "{{.Team}}/{{.Repository}}".
Definition ex_title_template : string := "{{.Team}}-{{.Repository}}".
Definition ex_repo : Repo := MkRepo "svc" false.
Definition ex_title : string := "platform-svc".
Definition ex_keys_ro_first : list Key :=
  [MkKey 1 ex_title (Some true); MkKey 2 ex_title (Some false)].
Definition ex_keys_rw_first : list Key :=
  [MkKey 1 ex_title (Some false); MkKey 2 ex_title (Some true)].

Definition ex_keys_single : list Key := [MkKey 1 ex_title (Some false)].
Definition ex_lookup_unparsable : result Z :=
  Err (PlainError "failed to find timestamp in description: ").

(** Character-wise replacement of ['.'] by ['-']: what the sanitisation of
    [NewTemplate] is meant to compute. *)
Fixpoint dots_to_dashes (s : string) : string :=
  match s with
  | EmptyString => EmptyString
  | String c r => String (if Ascii.eqb c "."%char then "-"%char else c) (dots_to_dashes r)
  end.

(** A secrets store in which the team's secret already exists. *)
Definition ex_secrets : gmap string SecretEntry :=
  {[ "platform/svc" := MkSecretEntry (Some "old") (Some "key") ]}.

(** A secrets store with a secret stamped by [WriteSecret]. *)
Definition ex_stamped_secrets : gmap string SecretEntry :=
  {[ "platform/svc" :=
       MkSecretEntry (Some "Github credentials for Concourse. Last updated: 2024-02-29T12:34:56Z")
         (Some "key") ]}.

(** The example backend with a failing repository listing. *)
Definition list_failing_backend (e : go_error) : Backend :=
  {| World := Z;
     b_now := fun w => w;
     b_sleep := fun s w => w + s;
     b_create_access_token := fun _ w => (Ok "token", w);
     b_write_secret := fun _ _ w => (Ok tt, w);
     b_list_repos := fun _ => Err e;
     b_list_keys := fun _ _ _ => Ok [];
     b_get_last_updated := fun _ _ => Err e;
     b_generate_key_pair := fun _ w => (Ok ("private", "public"), w);
     b_create_key := fun _ _ _ _ _ w => (Ok tt, w);
     b_delete_key := fun _ _ _ w => (Ok tt, w) |}.

(** Two keys with the team's title and the repository's flag. *)
Definition ex_keys_duplicate : list Key :=
  [MkKey 1 ex_title (Some false); MkKey 7 "other-team" None; MkKey 2 ex_title (Some false)].

(** The calls of a repository's iteration that address that repository,
    its secret path [kp] and its key title. *)
Definition event_targets (org rn : string) (ro : bool) (kp title : string) (ev : Event) : Prop :=
  match ev with
  | EListKeys o r _ => o = org /\ r = rn
  | EGetLastUpdated n _ => n = kp
  | EGenerateKeyPair t _ => t = title
  | ECreateKey o r ro' t _ _ => o = org /\ r = rn /\ ro' = ro /\ t = title
  | EWriteSecret n _ _ => n = kp
  | EDeleteKey o r _ _ => o = org /\ r = rn
  | ESleep _ | EWarn _ => True
  | ECreateAccessToken _ _ | EListRepos _ => False
  end.

(* ================================================================== *)
(** * Proofs *)

(* ------------------------------------------------------------------ *)
(** ** Lemmas on the monad and the key loop *)

Lemma bind_eq (B : Backend) {A C} (m : M B A) (k : A -> M B C) w a w1 t1 :
  m w = (a, w1, t1) ->
  bind B m k w = let '(c, w2, t2) := k a w1 in (c, w2, (t1 ++ t2)%list).
Proof. intros H. unfold bind. rewrite H. reflexivity. Qed.

Lemma ret_bind (B : Backend) {A C} (a : A) (k : A -> M B C) w :
  bind B (ret B a) k w = k a w.
Proof.
  unfold bind, ret. destruct (k a w) as [[c w2] t2]. reflexivity.
Qed.

Lemma scan_keys_skip_nonmatching (B : Backend) kp title repo key rest oldKey :
  String.eqb (key_title key) title = false ->
  scan_keys B kp title repo oldKey (key :: rest) = scan_keys B kp title repo oldKey rest.
Proof. intros H. simpl. rewrite H. reflexivity. Qed.

Lemma first_match_split title keys k :
  first_match title keys = Some k ->
  key_title k = title /\
  exists rest, forall (B : Backend) kp repo oldKey,
    scan_keys B kp title repo oldKey keys = scan_keys B kp title repo oldKey (k :: rest).
Proof.
  induction keys as [|key keys IH]; simpl; [discriminate|].
  destruct (String.eqb (key_title key) title) eqn:E.
  - intros H. injection H as <-. split; [apply String.eqb_eq; exact E|].
    exists keys. intros B kp repo oldKey. simpl. rewrite ?E. reflexivity.
  - intros H. destruct (IH H) as [Ht [rest Hr]]. split; [exact Ht|].
    exists rest. intros B kp repo oldKey. simpl. rewrite ?E. apply Hr.
Qed.

(** The key loop reads only: the world is unchanged, it emits lookups and
    warnings only, and an old key it returns is a listed key with the
    title (or the one it started with). *)
Lemma scan_keys_inv (B : Backend) kp title repo keys :
  forall oldKey w,
  let '(d, w', tr) := scan_keys B kp title repo oldKey keys w in
  w' = w /\ Forall (fun ev => scan_event ev = true) tr /\
  (forall k, d = Rotate (Some k) ->
     oldKey = Some k \/ (In k keys /\ key_title k = title)).
Proof.
  induction keys as [|key keys IH]; intros oldKey w; simpl.
  - split; [reflexivity|]. split; [constructor|]. intros k H. left. congruence.
  - destruct (String.eqb (key_title key) title) eqn:E.
    + apply String.eqb_eq in E.
      destruct (read_only_changed key repo).
      * unfold ret. split; [reflexivity|]. split; [constructor|].
        intros k H. right. injection H as <-. auto.
      * unfold bind, GetLastUpdated.
        destruct (b_get_last_updated B kp w) as [t|e].
        -- unfold time_now, ret.
           destruct (b_now B w - seven_days <? t).
           ++ simpl. split; [reflexivity|]. split; [repeat constructor|].
              discriminate.
           ++ specialize (IH (Some key) w).
              destruct (scan_keys B kp title repo (Some key) keys w) as [[d w'] tr].
              destruct IH as [Hw [Hf Hk]]. simpl. split; [exact Hw|].
              split; [repeat constructor; exact Hf|].
              intros k Hd. destruct (Hk k Hd) as [Hs|[Hi Ht]].
              ** right. injection Hs as <-. auto.
              ** right. auto.
        -- unfold ret, warn, bind.
           destruct (is_not_found e); simpl.
           ++ split; [reflexivity|]. split; [repeat constructor|].
              intros k H. right. injection H as <-. auto.
           ++ split; [reflexivity|]. split; [repeat constructor|].
              intros k H. right. injection H as <-. auto.
    + specialize (IH oldKey w).
      destruct (scan_keys B kp title repo oldKey keys w) as [[d w'] tr].
      destruct IH as [Hw [Hf Hk]]. split; [exact Hw|]. split; [exact Hf|].
      intros k Hd. destruct (Hk k Hd) as [Hs|[Hi Ht]]; auto.
Qed.

(** Once both templates resolve and the keys are listed, a repository is
    the key loop followed by the rotation it decides. *)
Lemma process_repo_unfold (B : Backend) team org keyT titleT repo keyPath title keys w :
  template_String (NewTemplate team (repo_name repo) org keyT) = Ok keyPath ->
  template_String (NewTemplate team (repo_name repo) org titleT) = Ok title ->
  b_list_keys B org (repo_name repo) w = Ok keys ->
  process_repo B team org keyT titleT repo w =
  let '(d, w1, t1) := scan_keys B keyPath title repo None keys w in
  let '(c, w2, t2) :=
    match d with
    | Skip => ret B tt
    | Rotate oldKey => rotate_key B org keyPath title repo oldKey
    end w1 in
  (c, w2, EListKeys org (repo_name repo) true :: (t1 ++ t2)%list).
Proof.
  intros Hk Ht Hl. unfold process_repo. rewrite Hk, Ht.
  unfold bind at 1, ListKeys. rewrite Hl. simpl.
  unfold bind. destruct (scan_keys B keyPath title repo None keys w) as [[d w1] t1].
  destruct (match d with
            | Skip => ret B tt
            | Rotate oldKey => rotate_key B org keyPath title repo oldKey
            end w1) as [[c w2] t2].
  reflexivity.
Qed.

(** A repository whose loop ends in [Rotate oldKey] is a rotation after
    the loop's events. *)
Lemma process_repo_rotates (B : Backend) team org keyT titleT repo keyPath title keys
  w pre oldKey :
  template_String (NewTemplate team (repo_name repo) org keyT) = Ok keyPath ->
  template_String (NewTemplate team (repo_name repo) org titleT) = Ok title ->
  b_list_keys B org (repo_name repo) w = Ok keys ->
  scan_keys B keyPath title repo None keys w = (Rotate oldKey, w, pre) ->
  process_repo B team org keyT titleT repo w =
  let '(x, w', tr) := rotate_key B org keyPath title repo oldKey w in
  (x, w', EListKeys org (repo_name repo) true :: (pre ++ tr)%list).
Proof.
  intros Hk Ht Hl Hs. rewrite (process_repo_unfold B team org keyT titleT repo keyPath title keys w Hk Ht Hl).
  rewrite Hs. reflexivity.
Qed.

Lemma scan_events_no_delete t owner rname id ok :
  Forall (fun ev => scan_event ev = true) t -> ~ In (EDeleteKey owner rname id ok) t.
Proof.
  intros Hf Hin. rewrite List.Forall_forall in Hf. specialize (Hf _ Hin). discriminate.
Qed.

Lemma scan_events_not_mutating t :
  Forall (fun ev => scan_event ev = true) t -> Forall (fun ev => is_mutating ev = false) t.
Proof.
  intros Hf. induction Hf as [|ev t Hev Hf IH]; constructor; [|exact IH].
  destruct ev; simpl in *; congruence.
Qed.

(* ------------------------------------------------------------------ *)
(** ** Claims on the per-repository decision *)

(** C1 (amended): when the first listed key with the team's title has a
    read-only flag that agrees with the repository's (or no flag), and the
    secret was stamped less than seven days ago, the repository costs one
    key listing and one timestamp lookup, and nothing is written. *)
Theorem fresh_matching_key_no_writes (B : Backend) team org keyT titleT repo
  keyPath title keys k t w :
  template_String (NewTemplate team (repo_name repo) org keyT) = Ok keyPath ->
  template_String (NewTemplate team (repo_name repo) org titleT) = Ok title ->
  b_list_keys B org (repo_name repo) w = Ok keys ->
  first_match title keys = Some k ->
  read_only_changed k repo = false ->
  b_get_last_updated B keyPath w = Ok t ->
  b_now B w - seven_days < t ->
  process_repo B team org keyT titleT repo w =
  (tt, w, [EListKeys org (repo_name repo) true; EGetLastUpdated keyPath true]).
Proof.
  intros Hk Ht Hl Hm Hro Hg Hfresh.
  destruct (first_match_split _ _ _ Hm) as [Htk [rest Hr]].
  rewrite (process_repo_unfold B team org keyT titleT repo keyPath title keys w Hk Ht Hl).
  rewrite Hr. simpl. rewrite Htk, String.eqb_refl, Hro.
  unfold bind, GetLastUpdated, time_now. rewrite Hg.
  apply Z.ltb_lt in Hfresh. rewrite Hfresh. reflexivity.
Qed.

(** C1 refuted as stated: a key with the team's title, agreeing flag and a
    fresh secret is listed, yet an earlier key with the same title and a
    different flag makes the run rotate (a new key pair is generated). *)
Lemma duplicate_title_fresh_key_rotates :
  let B := sim_backend [ex_repo] ex_keys_ro_first (Ok 1000) in
  In (MkKey 2 ex_title (Some false)) ex_keys_ro_first /\
  key_read_only (MkKey 2 ex_title (Some false)) = Some (repo_read_only ex_repo) /\
  b_now B 1000 - seven_days < 1000 /\
  template_String (NewTemplate ex_team (repo_name ex_repo) ex_org ex_title_template)
    = Ok ex_title /\
  In (EGenerateKeyPair ex_title true)
     (snd (process_repo B ex_team ex_org ex_key_template ex_title_template ex_repo 1000)).
Proof.
  simpl. split; [right; left; reflexivity|].
  split; [reflexivity|]. split; [reflexivity|]. split; [reflexivity|].
  vm_compute. right; left; reflexivity.
Qed.

(** C4 (amended): when the first listed key with the team's title has a
    read-only flag that differs from the repository's, the repository is
    rotated straight away with that key as the old key: no timestamp is
    looked up, and [rotate_key] generates a pair, publishes it with the
    repository's flag, persists the private half and deletes the old key,
    each step running only if the previous one succeeded. *)
Theorem read_only_change_rotates (B : Backend) team org keyT titleT repo
  keyPath title keys k w :
  template_String (NewTemplate team (repo_name repo) org keyT) = Ok keyPath ->
  template_String (NewTemplate team (repo_name repo) org titleT) = Ok title ->
  b_list_keys B org (repo_name repo) w = Ok keys ->
  first_match title keys = Some k ->
  read_only_changed k repo = true ->
  process_repo B team org keyT titleT repo w =
  let '(x, w', tr) := rotate_key B org keyPath title repo (Some k) w in
  (x, w', EListKeys org (repo_name repo) true :: tr).
Proof.
  intros Hk Ht Hl Hm Hro.
  destruct (first_match_split _ _ _ Hm) as [Htk [rest Hr]].
  apply (process_repo_rotates B team org keyT titleT repo keyPath title keys w []
           (Some k) Hk Ht Hl).
  rewrite Hr. simpl. rewrite Htk, String.eqb_refl, Hro. reflexivity.
Qed.

(** C4 refuted as stated: the second listed key has the team's title and a
    read-only flag different from the repository's, but the first key with
    that title agrees and the secret is fresh, so nothing is rotated. *)
Lemma duplicate_title_read_only_change_skipped :
  let B := sim_backend [ex_repo] ex_keys_rw_first (Ok 1000) in
  In (MkKey 2 ex_title (Some true)) ex_keys_rw_first /\
  read_only_changed (MkKey 2 ex_title (Some true)) ex_repo = true /\
  process_repo B ex_team ex_org ex_key_template ex_title_template ex_repo 1000 =
  (tt, 1000, [EListKeys ex_org "svc" true; EGetLastUpdated "platform/svc" true]).
Proof.
  simpl. split; [right; left; reflexivity|]. split; [reflexivity|].
  vm_compute. reflexivity.
Qed.

(** C2: a deletion of a key happens only in the sequence: new pair
    generated, public half published with the repository's flag, private
    half persisted at the key path, one second of sleep, then deletion of a
    listed key carrying the team's title; everything before and after in
    the repository's trace is non-mutating. *)
Theorem delete_only_after_publish_and_persist (B : Backend) team org keyT titleT
  repo w owner rname id ok :
  In (EDeleteKey owner rname id ok) (snd (process_repo B team org keyT titleT repo w)) ->
  exists keyPath title keys k private public pre post,
    template_String (NewTemplate team (repo_name repo) org keyT) = Ok keyPath /\
    template_String (NewTemplate team (repo_name repo) org titleT) = Ok title /\
    b_list_keys B org (repo_name repo) w = Ok keys /\
    In k keys /\ key_title k = title /\
    owner = org /\ rname = repo_name repo /\ id = key_id k /\
    snd (process_repo B team org keyT titleT repo w) =
      (pre ++ [EGenerateKeyPair title true;
               ECreateKey org (repo_name repo) (repo_read_only repo) title public true;
               EWriteSecret keyPath private true;
               ESleep 1;
               EDeleteKey org (repo_name repo) (key_id k) ok] ++ post)%list /\
    Forall (fun ev => is_mutating ev = false) (pre ++ post)%list.
Proof.
  intros Hin.
  destruct (template_String (NewTemplate team (repo_name repo) org keyT)) as [keyPath|e] eqn:Hk;
    [|unfold process_repo in Hin; rewrite Hk in Hin; simpl in Hin; intuition discriminate].
  destruct (template_String (NewTemplate team (repo_name repo) org titleT)) as [title|e] eqn:Ht;
    [|unfold process_repo in Hin; rewrite Hk, Ht in Hin; simpl in Hin; intuition discriminate].
  destruct (b_list_keys B org (repo_name repo) w) as [keys|e] eqn:Hl;
    [|unfold process_repo, bind, ListKeys in Hin; rewrite Hk, Ht, Hl in Hin; simpl in Hin;
      intuition discriminate].
  rewrite (process_repo_unfold B team org keyT titleT repo keyPath title keys w Hk Ht Hl) in *.
  pose proof (scan_keys_inv B keyPath title repo keys None w) as Hinv.
  destruct (scan_keys B keyPath title repo None keys w) as [[d w1] t1].
  destruct Hinv as [-> [Hf Hold]].
  assert (Hnot : ~ In (EDeleteKey owner rname id ok) t1) by (apply scan_events_no_delete; exact Hf).
  destruct d as [|oldKey].
  { simpl in Hin. rewrite app_nil_r in Hin. destruct Hin as [Hin|Hin]; [discriminate|].
    contradiction. }
  unfold rotate_key, bind, GenerateKeyPair, CreateKey, WriteSecret, time_sleep,
    DeleteKey, warn, ret in *.
  destruct (b_generate_key_pair B title w) as [[[private public]|e] w2] eqn:Hg;
    [|simpl in Hin; destruct Hin as [Hin|Hin]; [discriminate|];
      apply in_app_or in Hin; simpl in Hin; intuition discriminate].
  destruct (b_create_key B org (repo_name repo) (repo_read_only repo) title public w2)
    as [[[]|e] w3] eqn:Hc;
    [|simpl in Hin; destruct Hin as [Hin|Hin]; [discriminate|];
      apply in_app_or in Hin; simpl in Hin; intuition discriminate].
  destruct (b_write_secret B keyPath private w3) as [[[]|e] w4] eqn:Hw;
    [|simpl in Hin; destruct Hin as [Hin|Hin]; [discriminate|];
      apply in_app_or in Hin; simpl in Hin; intuition discriminate].
  destruct oldKey as [k|];
    [|simpl in Hin; destruct Hin as [Hin|Hin]; [discriminate|];
      apply in_app_or in Hin; simpl in Hin; intuition discriminate].
  destruct (Hold k eq_refl) as [Habs|[Hk_in Hk_title]]; [discriminate|].
  destruct (b_delete_key B org (repo_name repo) (key_id k) (b_sleep B 1 w4)) as [rd w5] eqn:Hd.
  assert (Hfind : EDeleteKey owner rname id ok = EDeleteKey org (repo_name repo) (key_id k) (is_ok rd)).
  { destruct rd; simpl in Hin |- *; destruct Hin as [Hin|Hin]; try discriminate;
      apply in_app_or in Hin; destruct Hin as [Hin|Hin]; try contradiction;
      simpl in Hin; intuition congruence. }
  injection Hfind as -> -> -> ->.
  exists keyPath, title, keys, k, private, public,
    (EListKeys org (repo_name repo) true :: t1),
    (if is_ok rd then [] else [EWarn "failed to delete old github key"]).
  refine (conj eq_refl (conj eq_refl (conj eq_refl (conj Hk_in (conj Hk_title
            (conj eq_refl (conj eq_refl (conj eq_refl (conj _ _))))))))).
  - destruct rd; simpl; rewrite <- ?app_assoc; reflexivity.
  - apply List.Forall_app. split.
    + constructor; [reflexivity|]. apply scan_events_not_mutating. exact Hf.
    + destruct rd; simpl; repeat constructor.
Qed.

(** When the timestamp lookup fails and some listed key has the title, the
    key loop decides a rotation with a listed key of that title, after at
    most the failed lookup (and its warning unless the secret is missing). *)
Lemma scan_keys_lookup_error (B : Backend) kp title repo e w keys :
  b_get_last_updated B kp w = Err e ->
  forall oldKey, (exists k, In k keys /\ key_title k = title) ->
  exists k' pre,
    scan_keys B kp title repo oldKey keys w = (Rotate (Some k'), w, pre) /\
    In k' keys /\ key_title k' = title /\
    (pre = [] \/
     pre = EGetLastUpdated kp false ::
             (if is_not_found e then [] else [EWarn "failed to get last updated for secret"])).
Proof.
  intros Hg. induction keys as [|key keys IH]; intros oldKey [k [Hin Hkt]];
    [destruct Hin|].
  destruct (String.eqb (key_title key) title) eqn:E.
  - apply String.eqb_eq in E. simpl. rewrite (proj2 (String.eqb_eq _ _) E).
    destruct (read_only_changed key repo).
    + exists key, []. repeat split; auto; try (left; reflexivity).
    + unfold bind, GetLastUpdated. rewrite Hg.
      exists key. destruct (is_not_found e); simpl.
      * eexists. split; [reflexivity|]. repeat split; auto.
      * eexists. split; [reflexivity|]. repeat split; auto.
  - destruct Hin as [<-|Hin].
    + rewrite Hkt, String.eqb_refl in E. discriminate.
    + destruct (IH oldKey (ex_intro _ k (conj Hin Hkt))) as [k' [pre [Hs [Hi [Ht Hp]]]]].
      exists k', pre. rewrite scan_keys_skip_nonmatching by exact E.
      repeat split; auto. right; exact Hi.
Qed.

(** C5: when a listed key carries the team's title with an agreeing flag
    and the timestamp lookup fails because the secret does not exist, the
    repository is not skipped: it is rotated (generate, publish, persist,
    delete) with a listed key of that title as the old key. *)
Theorem secret_not_found_rotates (B : Backend) team org keyT titleT repo
  keyPath title keys k e w :
  template_String (NewTemplate team (repo_name repo) org keyT) = Ok keyPath ->
  template_String (NewTemplate team (repo_name repo) org titleT) = Ok title ->
  b_list_keys B org (repo_name repo) w = Ok keys ->
  In k keys -> key_title k = title -> read_only_changed k repo = false ->
  b_get_last_updated B keyPath w = Err e ->
  is_not_found e = true ->
  exists k' pre,
    In k' keys /\ key_title k' = title /\
    (pre = [] \/ pre = [EGetLastUpdated keyPath false]) /\
    process_repo B team org keyT titleT repo w =
    let '(x, w', tr) := rotate_key B org keyPath title repo (Some k') w in
    (x, w', EListKeys org (repo_name repo) true :: (pre ++ tr)%list).
Proof.
  intros Hk Ht Hl Hin Hkt _ Hg Hnf.
  destruct (scan_keys_lookup_error B keyPath title repo e w keys Hg None
              (ex_intro _ k (conj Hin Hkt))) as [k' [pre [Hs [Hi [Hti Hp]]]]].
  rewrite Hnf in Hp.
  exists k', pre. split; [exact Hi|]. split; [exact Hti|]. split; [exact Hp|].
  exact (process_repo_rotates B team org keyT titleT repo keyPath title keys w pre
           (Some k') Hk Ht Hl Hs).
Qed.

(** C3 (amended): when a listed key carries the team's title with an
    agreeing flag and the timestamp lookup fails for another reason than a
    missing secret, the run logs a warning and rotates the repository, as
    for a missing secret; it is not skipped. *)
Theorem lookup_failure_rotates (B : Backend) team org keyT titleT repo
  keyPath title keys k e w :
  template_String (NewTemplate team (repo_name repo) org keyT) = Ok keyPath ->
  template_String (NewTemplate team (repo_name repo) org titleT) = Ok title ->
  b_list_keys B org (repo_name repo) w = Ok keys ->
  In k keys -> key_title k = title -> read_only_changed k repo = false ->
  b_get_last_updated B keyPath w = Err e ->
  is_not_found e = false ->
  exists k' pre,
    In k' keys /\ key_title k' = title /\
    (pre = [] \/
     pre = [EGetLastUpdated keyPath false; EWarn "failed to get last updated for secret"]) /\
    process_repo B team org keyT titleT repo w =
    let '(x, w', tr) := rotate_key B org keyPath title repo (Some k') w in
    (x, w', EListKeys org (repo_name repo) true :: (pre ++ tr)%list).
Proof.
  intros Hk Ht Hl Hin Hkt _ Hg Hnf.
  destruct (scan_keys_lookup_error B keyPath title repo e w keys Hg None
              (ex_intro _ k (conj Hin Hkt))) as [k' [pre [Hs [Hi [Hti Hp]]]]].
  rewrite Hnf in Hp.
  exists k', pre. split; [exact Hi|]. split; [exact Hti|]. split; [exact Hp|].
  exact (process_repo_rotates B team org keyT titleT repo keyPath title keys w pre
           (Some k') Hk Ht Hl Hs).
Qed.

(** C3 refuted as stated: the only key has the team's title and the
    repository's flag, the timestamp lookup fails with a non-AWS error (no
    timestamp in the description), and the run generates, publishes and
    persists a new key. *)
Lemma lookup_failure_not_skipped :
  let B := sim_backend [ex_repo] ex_keys_single ex_lookup_unparsable in
  read_only_changed (MkKey 1 ex_title (Some false)) ex_repo = false /\
  is_not_found (PlainError "failed to find timestamp in description: ") = false /\
  process_repo B ex_team ex_org ex_key_template ex_title_template ex_repo 1000 =
  (tt, 1001,
   [EListKeys ex_org "svc" true; EGetLastUpdated "platform/svc" false;
    EWarn "failed to get last updated for secret";
    EGenerateKeyPair ex_title true;
    ECreateKey ex_org "svc" false ex_title "public" true;
    EWriteSecret "platform/svc" "private" true;
    ESleep 1; EDeleteKey ex_org "svc" 1 true]).
Proof. simpl. split; [reflexivity|]. split; [reflexivity|]. vm_compute. reflexivity. Qed.

(* ------------------------------------------------------------------ *)
(** ** Claims on the per-team run *)

(** C7: the token step comes first and is fatal. A token path that does not
    resolve, a failed token request or a failed token write ends the run
    with an error, before the repositories are listed; and once the path
    resolves, the first backend call is always a token request (nothing is
    read beforehand, so there is no staleness check). *)
Theorem token_step_failure_aborts_team (B : Backend) org tokT keyT titleT team w :
  (forall e,
     template_String (NewTemplateWithoutRepository team org tokT) = Err e ->
     New B org tokT keyT titleT team w =
     (Err (WrappedError "parsing token path template" e), w,
      [EWarn "failed to parse token path template"])) /\
  (forall tokenPath e w1,
     template_String (NewTemplateWithoutRepository team org tokT) = Ok tokenPath ->
     b_create_access_token B org w = (Err e, w1) ->
     New B org tokT keyT titleT team w =
     (Err (WrappedError "creating access token" e), w1,
      [ECreateAccessToken org false; EWarn "failed to create access token"])) /\
  (forall tokenPath token e w1 w2,
     template_String (NewTemplateWithoutRepository team org tokT) = Ok tokenPath ->
     b_create_access_token B org w = (Ok token, w1) ->
     b_write_secret B tokenPath token w1 = (Err e, w2) ->
     New B org tokT keyT titleT team w =
     (Err (WrappedError "writing access token" e), w2,
      [ECreateAccessToken org true; EWriteSecret tokenPath token false;
       EWarn "failed to write access token"])) /\
  (forall tokenPath,
     template_String (NewTemplateWithoutRepository team org tokT) = Ok tokenPath ->
     exists ok rest, snd (New B org tokT keyT titleT team w) = ECreateAccessToken org ok :: rest).
Proof.
  split; [|split; [|split]].
  - intros e H. unfold New. rewrite H. reflexivity.
  - intros tokenPath e w1 H Hc. unfold New. rewrite H.
    unfold bind, CreateAccessToken. rewrite Hc. reflexivity.
  - intros tokenPath token e w1 w2 H Hc Hw. unfold New. rewrite H.
    unfold bind, CreateAccessToken, WriteSecret. rewrite Hc, Hw. reflexivity.
  - intros tokenPath H. unfold New. rewrite H. unfold bind at 1, CreateAccessToken.
    destruct (b_create_access_token B org w) as [r w1].
    lazymatch goal with
    | |- context [match ?m with pair _ _ => _ end] => destruct m as [[x w2] t2]
    end.
    exists (is_ok r), t2. reflexivity.
Qed.

(** Witness: with an unresolvable token template the run fails at once. *)
Lemma token_step_failure_aborts_team_witness :
  template_String (NewTemplateWithoutRepository ex_team ex_org "{{.Bogus}}")
    = Err (PlainError "template: path: can't evaluate field Bogus") /\
  New (sim_backend [ex_repo] [] (Ok 0)) ex_org "{{.Bogus}}" ex_key_template
      ex_title_template ex_team 0 =
  (Err (WrappedError "parsing token path template"
          (PlainError "template: path: can't evaluate field Bogus")), 0,
   [EWarn "failed to parse token path template"]).
Proof.
  split; [reflexivity|].
  apply (proj1 (token_step_failure_aborts_team (sim_backend [ex_repo] [] (Ok 0))
                  ex_org "{{.Bogus}}" ex_key_template ex_title_template ex_team 0)).
  reflexivity.
Defined.

(** C6 (amended): a template error is fatal only for the token path. An
    unresolvable key path or key title template skips the repository with
    a warning and no backend call, and once the token step and the listing
    succeed the run processes every listed repository and returns success. *)
Theorem template_error_fatal_only_for_token (B : Backend) org tokT keyT titleT team w :
  (forall e,
     template_String (NewTemplateWithoutRepository team org tokT) = Err e ->
     New B org tokT keyT titleT team w =
     (Err (WrappedError "parsing token path template" e), w,
      [EWarn "failed to parse token path template"])) /\
  (forall repo e,
     template_String (NewTemplate team (repo_name repo) org keyT) = Err e ->
     process_repo B team org keyT titleT repo w =
     (tt, w, [EWarn "failed to parse deploy key template"])) /\
  (forall repo keyPath e,
     template_String (NewTemplate team (repo_name repo) org keyT) = Ok keyPath ->
     template_String (NewTemplate team (repo_name repo) org titleT) = Err e ->
     process_repo B team org keyT titleT repo w =
     (tt, w, [EWarn "failed to parse github title template"])) /\
  (forall tokenPath token w1 w2 repos,
     template_String (NewTemplateWithoutRepository team org tokT) = Ok tokenPath ->
     b_create_access_token B org w = (Ok token, w1) ->
     b_write_secret B tokenPath token w1 = (Ok tt, w2) ->
     b_list_repos B w2 = Ok repos ->
     exists w',
       New B org tokT keyT titleT team w =
       (Ok tt, w',
        ECreateAccessToken org true :: EWriteSecret tokenPath token true ::
        EListRepos true :: snd (process_repos B team org keyT titleT repos w2))).
Proof.
  split; [|split; [|split]].
  - intros e H. unfold New. rewrite H. reflexivity.
  - intros repo e H. unfold process_repo. rewrite H. reflexivity.
  - intros repo keyPath e Hk Ht. unfold process_repo. rewrite Hk, Ht. reflexivity.
  - intros tokenPath token w1 w2 repos H Hc Hw Hl. unfold New. rewrite H.
    unfold bind at 1 2 3, CreateAccessToken, WriteSecret, List. rewrite Hc, Hw, Hl.
    simpl. unfold bind.
    destruct (process_repos B team org keyT titleT repos w2) as [[u w'] tr].
    exists w'. simpl. rewrite app_nil_r. reflexivity.
Qed.

(** Witness: a title template error on one repository. *)
Lemma template_error_fatal_only_for_token_witness :
  template_String (NewTemplate ex_team "svc" ex_org ex_key_template) = Ok "platform/svc" /\
  template_String (NewTemplate ex_team "svc" ex_org "{{.Title}}")
    = Err (PlainError "template: path: can't evaluate field Title") /\
  process_repo (sim_backend [ex_repo] [] (Ok 0)) ex_team ex_org ex_key_template
    "{{.Title}}" ex_repo 0 = (tt, 0, [EWarn "failed to parse github title template"]).
Proof.
  split; [reflexivity|]. split; [reflexivity|].
  apply (proj1 (proj2 (proj2 (template_error_fatal_only_for_token
           (sim_backend [ex_repo] [] (Ok 0)) ex_org "{{.Team}}/token" ex_key_template
           "{{.Title}}" ex_team 0))) ex_repo "platform/svc"
           (PlainError "template: path: can't evaluate field Title")); reflexivity.
Defined.

(** C6 refuted as stated: with an unresolvable key path template the run
    still processes both listed repositories and returns success. *)
Lemma key_template_error_not_fatal :
  template_String (NewTemplate ex_team "a" ex_org "{{.Bogus}}")
    = Err (PlainError "template: path: can't evaluate field Bogus") /\
  New (sim_backend [MkRepo "a" false; MkRepo "b" false] [] (Ok 0))
      ex_org "{{.Team}}/token" "{{.Bogus}}" ex_title_template ex_team 0 =
  (Ok tt, 0,
   [ECreateAccessToken ex_org true; EWriteSecret "platform/token" "token" true;
    EListRepos true;
    EWarn "failed to parse deploy key template";
    EWarn "failed to parse deploy key template"]).
Proof. split; vm_compute; reflexivity. Qed.

(* ------------------------------------------------------------------ *)
(** ** Claims on the templates *)

Lemma string_append_cons (c : ascii) (r s : string) :
  (String c r ++ s)%string = String c (r ++ s).
Proof. reflexivity. Qed.

Lemma string_append_empty_r (s : string) : (s ++ "")%string = s.
Proof.
  induction s as [|c r IH]; [reflexivity|].
  rewrite string_append_cons. f_equal. exact IH.
Qed.

Lemma prefix_dot (c : ascii) (r : string) :
  String.prefix "." (String c r) = Ascii.eqb c ".".
Proof.
  cbn [String.prefix]. destruct (ascii_dec "." c) as [<-|Hne].
  - destruct r; reflexivity.
  - symmetry. apply Ascii.eqb_neq. congruence.
Qed.

Lemma replace_nonempty_dot (s : string) :
  forall n, (String.length s <= n)%nat -> replace_nonempty n s "." "-" = dots_to_dashes s.
Proof.
  induction s as [|c r IH]; intros n Hn.
  - destruct n; reflexivity.
  - destruct n as [|n]; [simpl in Hn; lia|]. simpl in Hn.
    cbn [replace_nonempty dots_to_dashes]. rewrite prefix_dot.
    destruct (Ascii.eqb c ".") eqn:E.
    + apply Ascii.eqb_eq in E. subst c. cbn [string_drop String.length].
      rewrite IH by lia. reflexivity.
    + rewrite IH by lia. reflexivity.
Qed.

Lemma ReplaceAll_dot (s : string) : ReplaceAll s "." "-" = dots_to_dashes s.
Proof. unfold ReplaceAll. simpl. apply replace_nonempty_dot. lia. Qed.

Lemma dots_to_dashes_no_dot (s : string) :
  forall n c, String.get n (dots_to_dashes s) = Some c -> c <> "."%char.
Proof.
  induction s as [|a r IH]; intros n c H; [destruct n; discriminate|].
  destruct n as [|n]; simpl in H.
  - injection H as <-. destruct (Ascii.eqb a ".") eqn:E; [discriminate|].
    apply Ascii.eqb_neq in E. exact E.
  - exact (IH n c H).
Qed.

(** C8: [NewTemplate] replaces every ['.'] of the repository name by
    ['-'], so the name it resolves has no ['.']; under the template
    [{{.Team}}/{{.Repository}}] the result is the team, a slash and the
    sanitised name, and ["foo.bar"] with team ["x"] gives ["x/foo-bar"]. *)
Theorem repository_dots_sanitised (team repository owner template : string) :
  Repository (NewTemplate team repository owner template) = dots_to_dashes repository /\
  (forall n c, String.get n (Repository (NewTemplate team repository owner template)) = Some c ->
     c <> "."%char) /\
  template_String (NewTemplate team repository owner "{{.Team}}/{{.Repository}}")
    = Ok (team ++ "/" ++ dots_to_dashes repository) /\
  template_String (NewTemplate "x" "foo.bar" owner "{{.Team}}/{{.Repository}}") = Ok "x/foo-bar".
Proof.
  split; [apply ReplaceAll_dot|]. split.
  - simpl. rewrite ReplaceAll_dot. apply dots_to_dashes_no_dot.
  - split; [|reflexivity].
    unfold template_String. simpl. rewrite ReplaceAll_dot, string_append_empty_r. reflexivity.
Qed.

(* ------------------------------------------------------------------ *)
(** ** Witnesses of the per-repository theorems *)

Lemma fresh_matching_key_no_writes_witness :
  process_repo (sim_backend [ex_repo] ex_keys_single (Ok 1000)) ex_team ex_org
    ex_key_template ex_title_template ex_repo 1000 =
  (tt, 1000, [EListKeys ex_org "svc" true; EGetLastUpdated "platform/svc" true]).
Proof.
  apply (fresh_matching_key_no_writes (sim_backend [ex_repo] ex_keys_single (Ok 1000))
           ex_team ex_org ex_key_template ex_title_template ex_repo "platform/svc" ex_title
           ex_keys_single (MkKey 1 ex_title (Some false)) 1000 1000);
    reflexivity.
Defined.

Lemma read_only_change_rotates_witness :
  process_repo (sim_backend [ex_repo] [MkKey 1 ex_title (Some true)] (Ok 1000)) ex_team
    ex_org ex_key_template ex_title_template ex_repo 1000 =
  let '(x, w', tr) :=
    rotate_key (sim_backend [ex_repo] [MkKey 1 ex_title (Some true)] (Ok 1000)) ex_org
      "platform/svc" ex_title ex_repo (Some (MkKey 1 ex_title (Some true))) 1000 in
  (x, w', EListKeys ex_org "svc" true :: tr).
Proof.
  apply (read_only_change_rotates
           (sim_backend [ex_repo] [MkKey 1 ex_title (Some true)] (Ok 1000))
           ex_team ex_org ex_key_template ex_title_template ex_repo "platform/svc" ex_title
           [MkKey 1 ex_title (Some true)] (MkKey 1 ex_title (Some true)) 1000);
    reflexivity.
Defined.

Lemma delete_only_after_publish_and_persist_witness :
  exists keyPath title keys k private public pre post,
    template_String (NewTemplate ex_team "svc" ex_org ex_key_template) = Ok keyPath /\
    template_String (NewTemplate ex_team "svc" ex_org ex_title_template) = Ok title /\
    Ok [MkKey 1 ex_title (Some true)] = Ok keys /\
    In k keys /\ key_title k = title /\
    ex_org = ex_org /\ "svc" = repo_name ex_repo /\ 1 = key_id k /\
    snd (process_repo (sim_backend [ex_repo] [MkKey 1 ex_title (Some true)] (Ok 1000))
           ex_team ex_org ex_key_template ex_title_template ex_repo 1000) =
      (pre ++ [EGenerateKeyPair title true;
               ECreateKey ex_org "svc" false title public true;
               EWriteSecret keyPath private true;
               ESleep 1;
               EDeleteKey ex_org "svc" (key_id k) true] ++ post)%list /\
    Forall (fun ev => is_mutating ev = false) (pre ++ post)%list.
Proof.
  apply (delete_only_after_publish_and_persist
           (sim_backend [ex_repo] [MkKey 1 ex_title (Some true)] (Ok 1000))
           ex_team ex_org ex_key_template ex_title_template ex_repo 1000 ex_org "svc" 1 true).
  vm_compute. do 5 right. left. reflexivity.
Defined.

Lemma secret_not_found_rotates_witness :
  exists k' pre,
    In k' ex_keys_single /\ key_title k' = ex_title /\
    (pre = [] \/ pre = [EGetLastUpdated "platform/svc" false]) /\
    process_repo (sim_backend [ex_repo] ex_keys_single
                    (Err (AwsError ErrCodeResourceNotFoundException "not found")))
      ex_team ex_org ex_key_template ex_title_template ex_repo 1000 =
    let '(x, w', tr) :=
      rotate_key (sim_backend [ex_repo] ex_keys_single
                    (Err (AwsError ErrCodeResourceNotFoundException "not found")))
        ex_org "platform/svc" ex_title ex_repo (Some k') 1000 in
    (x, w', EListKeys ex_org (repo_name ex_repo) true :: (pre ++ tr)%list).
Proof.
  apply (secret_not_found_rotates
           (sim_backend [ex_repo] ex_keys_single
              (Err (AwsError ErrCodeResourceNotFoundException "not found")))
           ex_team ex_org ex_key_template ex_title_template ex_repo "platform/svc" ex_title
           ex_keys_single (MkKey 1 ex_title (Some false))
           (AwsError ErrCodeResourceNotFoundException "not found") 1000);
    try reflexivity.
  left. reflexivity.
Defined.

Lemma lookup_failure_rotates_witness :
  exists k' pre,
    In k' ex_keys_single /\ key_title k' = ex_title /\
    (pre = [] \/
     pre = [EGetLastUpdated "platform/svc" false; EWarn "failed to get last updated for secret"]) /\
    process_repo (sim_backend [ex_repo] ex_keys_single ex_lookup_unparsable)
      ex_team ex_org ex_key_template ex_title_template ex_repo 1000 =
    let '(x, w', tr) :=
      rotate_key (sim_backend [ex_repo] ex_keys_single ex_lookup_unparsable)
        ex_org "platform/svc" ex_title ex_repo (Some k') 1000 in
    (x, w', EListKeys ex_org (repo_name ex_repo) true :: (pre ++ tr)%list).
Proof.
  apply (lookup_failure_rotates
           (sim_backend [ex_repo] ex_keys_single ex_lookup_unparsable)
           ex_team ex_org ex_key_template ex_title_template ex_repo "platform/svc" ex_title
           ex_keys_single (MkKey 1 ex_title (Some false))
           (PlainError "failed to find timestamp in description: ") 1000);
    try reflexivity.
  left. reflexivity.
Defined.

(* ------------------------------------------------------------------ *)
(** ** Claim on the DynamoDB lister *)

Lemma repos_of_items_read_only {Item : Type} (UnmarshalMap : Item -> result string) items :
  forall repos, repos_of_items UnmarshalMap items = Returned (Ok repos) ->
  Forall (fun r => repo_read_only r = false) repos.
Proof.
  induction items as [|item rest IH]; intros repos H; simpl in H.
  - injection H as <-. constructor.
  - destruct (UnmarshalMap item) as [name|e]; [|discriminate].
    destruct (repos_of_items UnmarshalMap rest) as [[rs|e]|m] eqn:E; try discriminate.
    injection H as <-. constructor; [reflexivity|]. apply IH. reflexivity.
Qed.

(** C10: every repository returned by [DynamoDBReposLister.List] has
    [ReadOnly = false], whatever the table holds; so for these repositories
    a read-only mismatch can only come from a key whose flag is [true]. *)
Theorem dynamodb_repos_read_write {Item : Type} (UnmarshalMap : Item -> result string)
  (scanOutput : result (list Item)) (repos : list Repo) :
  DynamoDBReposLister_List UnmarshalMap scanOutput = Returned (Ok repos) ->
  Forall (fun r => repo_read_only r = false) repos /\
  (forall r k, In r repos -> read_only_changed k r = true -> key_read_only k = Some true).
Proof.
  intros H. destruct scanOutput as [items|e]; [|discriminate]. simpl in H.
  pose proof (repos_of_items_read_only UnmarshalMap items repos H) as Hf.
  split; [exact Hf|].
  intros r k Hin Hch. rewrite List.Forall_forall in Hf. specialize (Hf r Hin).
  unfold read_only_changed in Hch. rewrite Hf in Hch.
  destruct (key_read_only k) as [[]|]; simpl in Hch; congruence.
Qed.

Lemma dynamodb_repos_read_write_witness :
  Forall (fun r => repo_read_only r = false) [MkRepo "svc-a" false; MkRepo "svc.b" false] /\
  (forall r k, In r [MkRepo "svc-a" false; MkRepo "svc.b" false] ->
     read_only_changed k r = true -> key_read_only k = Some true).
Proof.
  apply (dynamodb_repos_read_write (fun s : string => Ok s) (Ok ["svc-a"; "svc.b"])).
  reflexivity.
Defined.

(* ------------------------------------------------------------------ *)
(** ** Claims on the secret timestamp *)

Lemma div_step (y k : Z) : 0 < k ->
  y / k - (y - 1) / k = if y mod k =? 0 then 1 else 0.
Proof.
  intros Hk.
  pose proof (Z.div_mod y k ltac:(lia)) as E1.
  pose proof (Z.div_mod (y - 1) k ltac:(lia)) as E2.
  pose proof (Z.mod_pos_bound y k Hk) as B1.
  pose proof (Z.mod_pos_bound (y - 1) k Hk) as B2.
  destruct (Z.eqb_spec (y mod k) 0); nia.
Qed.

Lemma days_before_year_succ (y : Z) :
  days_before_year (y + 1) = days_before_year y + days_in_year y.
Proof.
  unfold days_before_year, leaps_before, days_in_year, is_leap.
  replace (y + 1 - 1) with y by lia.
  pose proof (div_step y 4 ltac:(lia)) as H4.
  pose proof (div_step y 100 ltac:(lia)) as H100.
  pose proof (div_step y 400 ltac:(lia)) as H400.
  pose proof (Z.div_mod y 4 ltac:(lia)). pose proof (Z.mod_pos_bound y 4 ltac:(lia)).
  pose proof (Z.div_mod y 100 ltac:(lia)). pose proof (Z.mod_pos_bound y 100 ltac:(lia)).
  pose proof (Z.div_mod y 400 ltac:(lia)). pose proof (Z.mod_pos_bound y 400 ltac:(lia)).
  destruct (Z.eqb_spec (y mod 4) 0), (Z.eqb_spec (y mod 100) 0), (Z.eqb_spec (y mod 400) 0);
    simpl; lia.
Qed.

Lemma days_in_year_bounds (y : Z) : 365 <= days_in_year y <= 366.
Proof. unfold days_in_year. destruct (is_leap y); lia. Qed.

Lemma days_in_month_pos (y m : Z) : 28 <= days_in_month y m.
Proof.
  unfold days_in_month.
  destruct (m =? 2); [destruct (is_leap y); lia|].
  destruct ((m =? 4) || (m =? 6) || (m =? 9) || (m =? 11)); lia.
Qed.

Lemma days_before_year_mono (a b : Z) : a <= b -> days_before_year a <= days_before_year b.
Proof.
  intros Hab. replace b with (a + Z.of_nat (Z.to_nat (b - a))) by lia.
  induction (Z.to_nat (b - a)) as [|k IH].
  - rewrite Z.add_0_r. lia.
  - replace (a + Z.of_nat (S k)) with (a + Z.of_nat k + 1) by lia.
    rewrite days_before_year_succ.
    pose proof (days_in_year_bounds (a + Z.of_nat k)). lia.
Qed.

Lemma year_fwd_spec (fuel : nat) : forall y d,
  0 <= d -> d < 365 * Z.of_nat fuel ->
  let '(y', d') := year_fwd fuel y d in
  days_before_year y' + d' = days_before_year y + d /\ 0 <= d' < days_in_year y' /\ y <= y'.
Proof.
  induction fuel as [|f IH]; intros y d Hd Hf; [lia|].
  cbn [year_fwd]. destruct (Z.ltb_spec d (days_in_year y)) as [Hlt|Hge].
  - split; [reflexivity|lia].
  - pose proof (days_in_year_bounds y).
    specialize (IH (y + 1) (d - days_in_year y) ltac:(lia) ltac:(lia)).
    destruct (year_fwd f (y + 1) (d - days_in_year y)) as [y' d'].
    rewrite days_before_year_succ in IH. lia.
Qed.

Lemma days_before_month_succ (y m : Z) : 1 <= m ->
  days_before_month y (m + 1) = days_before_month y m + days_in_month y m.
Proof.
  intros Hm. unfold days_before_month.
  replace (Z.to_nat (m + 1 - 1)) with (S (Z.to_nat (m - 1))) by lia.
  cbn [days_before_month_nat]. f_equal. f_equal. lia.
Qed.

Lemma days_before_month_1 (y : Z) : days_before_month y 1 = 0.
Proof. reflexivity. Qed.

Lemma days_before_month_13 (y : Z) : days_before_month y 13 = days_in_year y.
Proof.
  unfold days_before_month. simpl. unfold days_in_year, days_in_month. simpl.
  destruct (is_leap y); reflexivity.
Qed.

Lemma month_fwd_spec (y : Z) (fuel : nat) : forall m d,
  1 <= m -> 0 <= d ->
  days_before_month y m + d < days_before_month y (m + Z.of_nat (S fuel)) ->
  let '(m', d') := month_fwd fuel y m d in
  days_before_month y m' + d' = days_before_month y m + d /\
  0 <= d' < days_in_month y m' /\ m <= m' <= m + Z.of_nat fuel.
Proof.
  induction fuel as [|f IH]; intros m d Hm Hd Hlt.
  - cbn [month_fwd]. rewrite days_before_month_succ in Hlt by lia. lia.
  - cbn [month_fwd]. destruct (Z.ltb_spec d (days_in_month y m)) as [Hl|Hg].
    + lia.
    + pose proof (days_in_month_pos y m).
      specialize (IH (m + 1) (d - days_in_month y m) ltac:(lia) ltac:(lia)).
      rewrite days_before_month_succ in IH by lia.
      replace (m + 1 + Z.of_nat (S f)) with (m + Z.of_nat (S (S f))) in IH by lia.
      specialize (IH ltac:(lia)).
      destruct (month_fwd f y (m + 1) (d - days_in_month y m)) as [m' d']. lia.
Qed.

Lemma civil_from_days_spec (n : Z) :
  0 <= n < days_before_year 10000 ->
  let '(y, m, d) := civil_from_days n in
  1970 <= y <= 9999 /\ 1 <= m <= 12 /\ 1 <= d <= days_in_month y m /\
  days_from_civil y m d = n.
Proof.
  intros Hn. unfold civil_from_days.
  rewrite Nat.add_1_r. cbn [year_back].
  destruct (Z.ltb_spec n 0); [lia|].
  assert (Hfuel : n < 365 * Z.of_nat (Z.to_nat (n / 365) + 1)).
  { rewrite Nat2Z.inj_add, Z2Nat.id by (apply Z.div_pos; lia). cbn [Z.of_nat Pos.of_succ_nat].
    pose proof (Z.div_mod n 365 ltac:(lia)). pose proof (Z.mod_pos_bound n 365 ltac:(lia)). lia. }
  pose proof (year_fwd_spec (Z.to_nat (n / 365) + 1) 1970 n ltac:(lia) Hfuel) as HY.
  destruct (year_fwd (Z.to_nat (n / 365) + 1) 1970 n) as [y doy].
  destruct HY as [HY1 [HY2 HY3]].
  pose proof (month_fwd_spec y 11 1 doy ltac:(lia) ltac:(lia)) as HM.
  rewrite days_before_month_1 in HM.
  specialize (HM ltac:(change (1 + Z.of_nat 12) with 13; rewrite days_before_month_13; lia)).
  destruct (month_fwd 11 y 1 doy) as [m d]. destruct HM as [HM1 [HM2 HM3]].
  change (days_before_year 1970) with 0 in HY1.
  assert (y < 10000).
  { destruct (Z.ltb_spec y 10000) as [|Hge]; [assumption|].
    pose proof (days_before_year_mono _ _ Hge). lia. }
  unfold days_from_civil. cbn [Z.of_nat] in HM3.
  repeat split; try lia.
Qed.

Lemma string_append_empty_l (s : string) : ("" ++ s)%string = s.
Proof. reflexivity. Qed.

Lemma digit_char_ok (k : Z) : 0 <= k < 10 ->
  is_digit (digit_char k) = true /\ digit_val (digit_char k) = k.
Proof.
  intros Hk.
  assert (k = 0 \/ k = 1 \/ k = 2 \/ k = 3 \/ k = 4 \/ k = 5 \/ k = 6 \/ k = 7 \/ k = 8 \/ k = 9)
    as Hc by lia.
  repeat destruct Hc as [->|Hc]; try (subst k); split; reflexivity.
Qed.

Lemma decimal_rev_S (f : nat) (u : Z) :
  decimal_rev (S f) u =
  if u <? 10 then [digit_char u] else digit_char (u mod 10) :: decimal_rev f (u / 10).
Proof. reflexivity. Qed.

Ltac div10_facts x :=
  pose proof (Z.div_mod x 10 ltac:(lia)); pose proof (Z.mod_pos_bound x 10 ltac:(lia));
  pose proof (Z.div_mod (x / 10) 10 ltac:(lia)); pose proof (Z.mod_pos_bound (x / 10) 10 ltac:(lia));
  pose proof (Z.div_mod (x / 10 / 10) 10 ltac:(lia));
  pose proof (Z.mod_pos_bound (x / 10 / 10) 10 ltac:(lia));
  pose proof (Z.div_mod (x / 10 / 10 / 10) 10 ltac:(lia));
  pose proof (Z.mod_pos_bound (x / 10 / 10 / 10) 10 ltac:(lia)).

Ltac split_lt10 :=
  repeat (rewrite decimal_rev_S;
          lazymatch goal with |- context [if ?u <? 10 then _ else _] => destruct (Z.ltb_spec u 10) end).

Lemma appendInt_2 (x : Z) : 0 <= x < 100 ->
  appendInt x 2 = String (digit_char (x / 10)) (String (digit_char (x mod 10)) "").
Proof.
  intros Hx. div10_facts x. unfold appendInt.
  destruct (Z.ltb_spec x 0); [lia|]. rewrite Z.abs_eq by lia.
  split_lt10; cbn -[digit_char]; rewrite string_append_empty_l; try lia;
  try (replace (x / 10) with 0 by lia); try (replace (x mod 10) with x by lia);
  reflexivity.
Qed.

Lemma appendInt_4 (x : Z) : 0 <= x < 10000 ->
  appendInt x 4 =
  String (digit_char (x / 10 / 10 / 10)) (String (digit_char (x / 10 / 10 mod 10))
    (String (digit_char (x / 10 mod 10)) (String (digit_char (x mod 10)) ""))).
Proof.
  intros Hx. div10_facts x. unfold appendInt.
  destruct (Z.ltb_spec x 0); [lia|]. rewrite Z.abs_eq by lia.
  split_lt10; cbn -[digit_char]; rewrite string_append_empty_l; try lia;
  try (replace (x / 10 / 10 / 10) with 0 by lia);
  try (replace (x / 10 / 10 mod 10) with 0 by lia);
  try (replace (x / 10 mod 10) with 0 by lia);
  try (replace (x / 10 / 10 mod 10) with (x / 10 / 10) by lia);
  try (replace (x / 10 mod 10) with (x / 10) by lia);
  try (replace (x mod 10) with x by lia);
  reflexivity.
Qed.

Lemma parse_year_digits (x : Z) (r : string) : 0 <= x < 10000 ->
  parse_year (String (digit_char (x / 10 / 10 / 10)) (String (digit_char (x / 10 / 10 mod 10))
    (String (digit_char (x / 10 mod 10)) (String (digit_char (x mod 10)) r)))) = Ok (x, r).
Proof.
  intros Hx. div10_facts x.
  destruct (digit_char_ok (x / 10 / 10 / 10)) as [A1 B1]; [lia|].
  destruct (digit_char_ok (x / 10 / 10 mod 10)) as [A2 B2]; [lia|].
  destruct (digit_char_ok (x / 10 mod 10)) as [A3 B3]; [lia|].
  destruct (digit_char_ok (x mod 10)) as [A4 B4]; [lia|].
  unfold parse_year. rewrite A1, A2, A3, A4. cbn [andb].
  unfold digits_value. cbn [fold_left]. rewrite B1, B2, B3, B4.
  do 2 f_equal. lia.
Qed.

Lemma getnum_digits (x : Z) (r : string) (fixed : bool) : 0 <= x < 100 ->
  getnum (String (digit_char (x / 10)) (String (digit_char (x mod 10)) r)) fixed = Ok (x, r).
Proof.
  intros Hx. div10_facts x.
  destruct (digit_char_ok (x / 10)) as [A1 B1]; [lia|].
  destruct (digit_char_ok (x mod 10)) as [A2 B2]; [lia|].
  unfold getnum. rewrite A1, A2, B1, B2. do 2 f_equal. lia.
Qed.

Lemma days_in_month_le (y m : Z) : days_in_month y m <= 31.
Proof.
  unfold days_in_month.
  destruct (m =? 2); [destruct (is_leap y); lia|].
  destruct ((m =? 4) || (m =? 6) || (m =? 9) || (m =? 11)); lia.
Qed.

Ltac if_false :=
  lazymatch goal with
  | |- context [if ?b then _ else _] =>
      replace b with false by
        (symmetry; rewrite ?orb_false_iff, ?Z.leb_gt, ?Z.ltb_ge; lia)
  end.

Lemma Parse_RFC3339_parts (y m d hh mm ss : Z) :
  0 <= y < 10000 -> 1 <= m <= 12 -> 1 <= d <= days_in_month y m ->
  0 <= hh < 24 -> 0 <= mm < 60 -> 0 <= ss < 60 ->
  Parse_RFC3339 (appendInt y 4 ++ "-" ++ appendInt m 2 ++ "-" ++ appendInt d 2 ++ "T" ++
    appendInt hh 2 ++ ":" ++ appendInt mm 2 ++ ":" ++ appendInt ss 2 ++ "Z") =
  Ok (days_from_civil y m d * 86400 + hh * 3600 + mm * 60 + ss).
Proof.
  intros Hy Hm Hd Hh Hmi Hs. pose proof (days_in_month_le y m).
  rewrite appendInt_4, !appendInt_2 by lia.
  repeat rewrite ?string_append_cons, ?string_append_empty_l.
  unfold Parse_RFC3339. rewrite parse_year_digits by lia. cbn -[getnum digit_char].
  rewrite getnum_digits by lia. cbn -[getnum digit_char]. if_false.
  rewrite getnum_digits by lia. cbn -[getnum digit_char].
  rewrite getnum_digits by lia. cbn -[getnum digit_char]. if_false.
  rewrite getnum_digits by lia. cbn -[getnum digit_char]. if_false.
  rewrite getnum_digits by lia. cbn -[getnum digit_char]. if_false.
  if_false. reflexivity.
Qed.

Lemma FindString_app_no_digit (p s : string) :
  List.Forall (fun c => is_digit c = false) (list_ascii_of_string p) ->
  FindString (p ++ s) = FindString s.
Proof.
  induction p as [|c p IH]; intros Hp; [reflexivity|].
  inversion Hp as [|? ? Hc Hrest]; subst.
  rewrite string_append_cons. cbn [FindString]. unfold timestamp_regexp.
  cbn [match_prefix]. rewrite Hc. cbn [andb]. exact (IH Hrest).
Qed.

Lemma FindString_description (timestamp : string) :
  FindString (description_of timestamp) = FindString timestamp.
Proof.
  unfold description_of. apply FindString_app_no_digit.
  vm_compute. repeat constructor.
Qed.

Lemma FindString_timestamp (c1 c2 c3 c4 c5 c6 c7 c8 c9 c10 c11 c12 c13 c14 : ascii) :
  is_digit c1 = true -> is_digit c2 = true -> is_digit c3 = true -> is_digit c4 = true ->
  is_digit c5 = true -> is_digit c6 = true -> is_digit c7 = true -> is_digit c8 = true ->
  is_digit c9 = true -> is_digit c10 = true -> is_digit c11 = true -> is_digit c12 = true ->
  is_digit c13 = true -> is_digit c14 = true ->
  let ts := String c1 (String c2 (String c3 (String c4 (String "-" (String c5 (String c6
    (String "-" (String c7 (String c8 (String "T" (String c9 (String c10 (String ":"
    (String c11 (String c12 (String ":" (String c13 (String c14 (String "Z" ""))))))))))))))))))) in
  FindString ts = ts.
Proof.
  intros H1 H2 H3 H4 H5 H6 H7 H8 H9 H10 H11 H12 H13 H14 ts.
  subst ts. cbn [FindString]. unfold timestamp_regexp. cbn [match_prefix].
  rewrite H1, H2, H3, H4, H5, H6, H7, H8, H9, H10, H11, H12, H13, H14. reflexivity.
Qed.

Lemma days_before_year_10000 : days_before_year 10000 = 2932897 /\ max_time = 2932897 * 86400.
Proof. split; reflexivity. Qed.

Ltac time_facts t :=
  pose proof (Z.div_mod t 86400 ltac:(lia)); pose proof (Z.mod_pos_bound t 86400 ltac:(lia));
  pose proof (Z.div_mod (t mod 86400) 3600 ltac:(lia));
  pose proof (Z.mod_pos_bound (t mod 86400) 3600 ltac:(lia));
  pose proof (Z.div_mod (t mod 86400 mod 3600) 60 ltac:(lia));
  pose proof (Z.mod_pos_bound (t mod 86400 mod 3600) 60 ltac:(lia));
  pose proof (Z.div_mod (t mod 86400) 60 ltac:(lia));
  pose proof (Z.mod_pos_bound (t mod 86400) 60 ltac:(lia)).

Lemma Parse_Format_RFC3339 (t : Z) : 0 <= t < max_time ->
  Parse_RFC3339 (Format_RFC3339 t) = Ok t.
Proof.
  intros Ht. time_facts t. unfold Format_RFC3339.
  pose proof (civil_from_days_spec (t / 86400)) as HC.
  destruct days_before_year_10000 as [E1 E2]. rewrite E1 in HC. rewrite E2 in Ht.
  destruct (civil_from_days (t / 86400)) as [[y m] d].
  destruct HC as [Hy [Hm [Hd Hciv]]]; [lia|].
  rewrite Parse_RFC3339_parts by lia. rewrite Hciv. f_equal. lia.
Qed.

Ltac digit_bounds x :=
  pose proof (Z.div_mod x 10 ltac:(lia)); pose proof (Z.mod_pos_bound x 10 ltac:(lia)).

Lemma FindString_Format_RFC3339 (t : Z) : 0 <= t < max_time ->
  FindString (Format_RFC3339 t) = Format_RFC3339 t /\ Format_RFC3339 t <> "".
Proof.
  intros Ht. time_facts t. unfold Format_RFC3339.
  pose proof (civil_from_days_spec (t / 86400)) as HC.
  destruct days_before_year_10000 as [E1 E2]. rewrite E1 in HC. rewrite E2 in Ht.
  destruct (civil_from_days (t / 86400)) as [[y m] d].
  destruct HC as [Hy [Hm [Hd Hciv]]]; [lia|]. pose proof (days_in_month_le y m).
  rewrite appendInt_4, !appendInt_2 by lia.
  repeat rewrite ?string_append_cons, ?string_append_empty_l.
  split; [|discriminate].
  div10_facts y. digit_bounds m. digit_bounds d. digit_bounds (t mod 86400 / 3600).
  digit_bounds (t mod 86400 mod 3600 / 60). digit_bounds (t mod 86400 mod 60).
  apply FindString_timestamp; apply digit_char_ok; lia.
Qed.

Lemma Manager_WriteSecret_stores (store : gmap string SecretEntry) (now : Z) (name secret : string) :
  Manager_WriteSecret store now name secret =
  (Ok tt, <[name := MkSecretEntry (Some (description_of (Format_RFC3339 now))) (Some secret)]> store).
Proof.
  unfold Manager_WriteSecret, CreateSecret, UpdateSecret.
  destruct (store !! name) as [e|] eqn:E.
  - cbn -[Format_RFC3339 description_of]. rewrite E. reflexivity.
  - cbn -[Format_RFC3339 description_of]. rewrite lookup_insert_eq, insert_insert_eq. reflexivity.
Qed.

Lemma Manager_GetLastUpdated_stamped (store : gmap string SecretEntry) (name : string) (t : Z)
  (value : option string) :
  0 <= t < max_time ->
  store !! name = Some (MkSecretEntry (Some (description_of (Format_RFC3339 t))) value) ->
  Manager_GetLastUpdated store name = Ok t.
Proof.
  intros Ht Hs. destruct (FindString_Format_RFC3339 t Ht) as [HF Hne].
  unfold Manager_GetLastUpdated, DescribeSecret. rewrite Hs. cbn [se_description StringValue].
  rewrite FindString_description, HF, Parse_Format_RFC3339 by exact Ht.
  destruct (String.eqb_spec (Format_RFC3339 t) "") as [He|_]; [contradiction|reflexivity].
Qed.

(** C9: [WriteSecret] succeeds whether or not the secret already exists,
    stamps its description with the current time in RFC 3339, stores the
    value, leaves the other secrets alone, and [GetLastUpdated] then parses
    back exactly the time that was written (for any time from 1970 up to the
    end of year 9999). *)
Theorem write_secret_stamps_and_round_trips (store : gmap string SecretEntry) (now : Z)
  (name secret : string) (Hnow : 0 <= now < max_time) :
  let '(r, store') := Manager_WriteSecret store now name secret in
  r = Ok tt /\
  store' !! name = Some (MkSecretEntry (Some (description_of (Format_RFC3339 now))) (Some secret)) /\
  (forall other, other <> name -> store' !! other = store !! other) /\
  Manager_GetLastUpdated store' name = Ok now.
Proof.
  rewrite Manager_WriteSecret_stores.
  split; [reflexivity|]. split; [apply lookup_insert_eq|]. split.
  - intros other Hne. apply lookup_insert_ne. congruence.
  - apply (Manager_GetLastUpdated_stamped _ _ _ (Some secret) Hnow). apply lookup_insert_eq.
Qed.

Lemma write_secret_stamps_and_round_trips_witness :
  (0 <= 1760400000 < max_time) /\
  (let '(r, store') :=
     Manager_WriteSecret ex_secrets
       1760400000 "platform/svc" "new-key" in
   r = Ok tt /\
   store' !! "platform/svc" =
     Some (MkSecretEntry (Some (description_of (Format_RFC3339 1760400000))) (Some "new-key")) /\
   (forall other, other <> "platform/svc" ->
      store' !! other = ex_secrets !! other) /\
   Manager_GetLastUpdated store' "platform/svc" = Ok 1760400000).
Proof.
  assert (H : 0 <= 1760400000 < max_time) by (unfold max_time; lia).
  split; [exact H|].
  exact (write_secret_stamps_and_round_trips ex_secrets 1760400000 "platform/svc" "new-key" H).
Defined.

(* ------------------------------------------------------------------ *)
(** ** Further properties of the secrets store, the handler, the
    repository lister, the key pair generation and the templates *)

Lemma year_back_spec (fuel : nat) : forall y d,
  - d <= 365 * Z.of_nat fuel ->
  let '(y', d') := year_back fuel y d in
  days_before_year y' + d' = days_before_year y + d /\ 0 <= d'.
Proof.
  induction fuel as [|f IH]; intros y d Hf.
  - cbn [year_back]. lia.
  - cbn [year_back]. destruct (Z.ltb_spec d 0) as [Hlt|Hge]; [|lia].
    pose proof (days_in_year_bounds (y - 1)).
    specialize (IH (y - 1) (d + days_in_year (y - 1)) ltac:(lia)).
    destruct (year_back f (y - 1) (d + days_in_year (y - 1))) as [y' d'].
    pose proof (days_before_year_succ (y - 1)) as Hs. replace (y - 1 + 1) with y in Hs by lia.
    lia.
Qed.

Lemma civil_from_days_valid (n : Z) :
  let '(y, m, d) := civil_from_days n in
  1 <= m <= 12 /\ 1 <= d <= days_in_month y m /\ days_from_civil y m d = n.
Proof.
  unfold civil_from_days.
  assert (Hb : - n <= 365 * Z.of_nat (Z.to_nat (- n / 365) + 1)).
  { pose proof (Z.div_mod (- n) 365 ltac:(lia)). pose proof (Z.mod_pos_bound (- n) 365 ltac:(lia)).
    rewrite Nat2Z.inj_add. cbn [Z.of_nat Pos.of_succ_nat].
    destruct (Z.le_gt_cases 0 (- n / 365)).
    - rewrite Z2Nat.id by lia. lia.
    - replace (Z.to_nat (- n / 365)) with 0%nat by lia. cbn [Z.of_nat]. lia. }
  pose proof (year_back_spec (Z.to_nat (- n / 365) + 1) 1970 n Hb) as HB.
  destruct (year_back (Z.to_nat (- n / 365) + 1) 1970 n) as [y0 d0]. destruct HB as [HB1 HB2].
  assert (Hfuel : d0 < 365 * Z.of_nat (Z.to_nat (d0 / 365) + 1)).
  { rewrite Nat2Z.inj_add, Z2Nat.id by (apply Z.div_pos; lia). cbn [Z.of_nat Pos.of_succ_nat].
    pose proof (Z.div_mod d0 365 ltac:(lia)). pose proof (Z.mod_pos_bound d0 365 ltac:(lia)). lia. }
  pose proof (year_fwd_spec (Z.to_nat (d0 / 365) + 1) y0 d0 HB2 Hfuel) as HY.
  destruct (year_fwd (Z.to_nat (d0 / 365) + 1) y0 d0) as [y doy].
  destruct HY as [HY1 [HY2 HY3]].
  pose proof (month_fwd_spec y 11 1 doy ltac:(lia) ltac:(lia)) as HM.
  rewrite days_before_month_1 in HM.
  specialize (HM ltac:(change (1 + Z.of_nat 12) with 13; rewrite days_before_month_13; lia)).
  destruct (month_fwd 11 y 1 doy) as [m d]. destruct HM as [HM1 [HM2 HM3]].
  change (days_before_year 1970) with 0 in HB1.
  unfold days_from_civil. cbn [Z.of_nat] in HM3.
  repeat split; lia.
Qed.

Lemma days_before_month_mono (y m m' : Z) : 1 <= m -> m <= m' ->
  days_before_month y m <= days_before_month y m'.
Proof.
  intros Hm Hmm. replace m' with (m + Z.of_nat (Z.to_nat (m' - m))) by lia.
  induction (Z.to_nat (m' - m)) as [|k IH].
  - rewrite Z.add_0_r. lia.
  - replace (m + Z.of_nat (S k)) with (m + Z.of_nat k + 1) by lia.
    rewrite days_before_month_succ by lia.
    pose proof (days_in_month_pos y (m + Z.of_nat k)). lia.
Qed.

Lemma days_from_civil_bounds (y m d : Z) :
  1 <= m <= 12 -> 1 <= d <= days_in_month y m ->
  days_before_year y + days_before_month y m <= days_from_civil y m d /\
  days_from_civil y m d < days_before_year y + days_before_month y (m + 1) /\
  days_before_month y (m + 1) <= days_in_year y.
Proof.
  intros Hm Hd. unfold days_from_civil.
  rewrite days_before_month_succ by lia.
  pose proof (days_before_month_mono y (m + 1) 13 ltac:(lia) ltac:(lia)).
  rewrite days_before_month_succ, days_before_month_13 in * by lia. lia.
Qed.

Lemma days_from_civil_inj (y m d y' m' d' : Z) :
  1 <= m <= 12 -> 1 <= d <= days_in_month y m ->
  1 <= m' <= 12 -> 1 <= d' <= days_in_month y' m' ->
  days_from_civil y m d = days_from_civil y' m' d' -> y = y' /\ m = m' /\ d = d'.
Proof.
  intros Hm Hd Hm' Hd' Heq.
  pose proof (days_from_civil_bounds y m d Hm Hd) as [A1 [A2 A3]].
  pose proof (days_from_civil_bounds y' m' d' Hm' Hd') as [B1 [B2 B3]].
  pose proof (days_before_month_mono y 1 m ltac:(lia) ltac:(lia)).
  pose proof (days_before_month_mono y' 1 m' ltac:(lia) ltac:(lia)).
  rewrite days_before_month_1 in *.
  assert (y = y').
  { destruct (Z.lt_total y y') as [Hlt|[Heq'|Hgt]]; [|exact Heq'|].
    - pose proof (days_before_year_mono (y + 1) y' ltac:(lia)).
      rewrite days_before_year_succ in *. lia.
    - pose proof (days_before_year_mono (y' + 1) y ltac:(lia)).
      rewrite days_before_year_succ in *. lia. }
  subst y'. assert (m = m').
  { destruct (Z.lt_total m m') as [Hlt|[Heq'|Hgt]]; [|exact Heq'|].
    - pose proof (days_before_month_mono y (m + 1) m' ltac:(lia) ltac:(lia)). lia.
    - pose proof (days_before_month_mono y (m' + 1) m ltac:(lia) ltac:(lia)). lia. }
  subst m'. unfold days_from_civil in Heq. lia.
Qed.

Lemma civil_from_days_from_civil (y m d : Z) :
  1 <= m <= 12 -> 1 <= d <= days_in_month y m ->
  civil_from_days (days_from_civil y m d) = (y, m, d).
Proof.
  intros Hm Hd. pose proof (civil_from_days_valid (days_from_civil y m d)) as H.
  destruct (civil_from_days (days_from_civil y m d)) as [[y' m'] d'].
  destruct H as [H1 [H2 H3]].
  destruct (days_from_civil_inj y' m' d' y m d H1 H2 Hm Hd H3) as [-> [-> ->]].
  reflexivity.
Qed.

Lemma match_prefix_timestamp (s : string) :
  match_prefix timestamp_regexp s = true ->
  exists c1 c2 c3 c4 c5 c6 c7 c8 c9 c10 c11 c12 c13 c14 rest,
    s = timestamp_text c1 c2 c3 c4 c5 c6 c7 c8 c9 c10 c11 c12 c13 c14 rest /\
    Forall (fun c => is_digit c = true) [c1; c2; c3; c4; c5; c6; c7; c8; c9; c10; c11; c12; c13; c14].
Proof.
  intros H. unfold timestamp_regexp in H.
  do 20 (destruct s as [|?c s]; [cbn [match_prefix] in H; rewrite ?andb_false_r in H; discriminate H|]).
  cbn [match_prefix] in H.
  repeat match type of H with
         | (?a && ?b) = true => apply andb_prop in H; destruct H as [?H H]
         end.
  repeat match goal with
         | Hc : Ascii.eqb _ _ = true |- _ => apply Ascii.eqb_eq in Hc; subst
         end.
  do 15 eexists. split; [reflexivity|]. repeat constructor; assumption.
Qed.

Lemma FindString_result (s : string) :
  FindString s <> "" ->
  exists c1 c2 c3 c4 c5 c6 c7 c8 c9 c10 c11 c12 c13 c14,
    FindString s = timestamp_text c1 c2 c3 c4 c5 c6 c7 c8 c9 c10 c11 c12 c13 c14 "" /\
    Forall (fun c => is_digit c = true) [c1; c2; c3; c4; c5; c6; c7; c8; c9; c10; c11; c12; c13; c14].
Proof.
  induction s as [|c r IH]; intros Hne; [contradiction|].
  cbn [FindString] in *. destruct (match_prefix timestamp_regexp (String c r)) eqn:E.
  - apply match_prefix_timestamp in E.
    destruct E as (c1 & c2 & c3 & c4 & c5 & c6 & c7 & c8 & c9 & c10 & c11 & c12 & c13 & c14 & rest & Hs & Hd).
    exists c1, c2, c3, c4, c5, c6, c7, c8, c9, c10, c11, c12, c13, c14.
    split; [|exact Hd]. rewrite Hs. unfold timestamp_text. cbn. destruct rest; reflexivity.
  - exact (IH Hne).
Qed.

Lemma digit_val_bounds (c : ascii) : is_digit c = true -> 0 <= digit_val c < 10.
Proof.
  unfold is_digit, digit_val. intros H. apply andb_prop in H as [H1 H2].
  apply Nat.leb_le in H1, H2. lia.
Qed.

Lemma digit_char_val (c : ascii) : is_digit c = true -> digit_char (digit_val c) = c.
Proof.
  unfold is_digit, digit_val, digit_char. intros H. apply andb_prop in H as [H1 H2].
  apply Nat.leb_le in H1, H2.
  replace (48 + Z.to_nat (Z.of_nat (nat_of_ascii c) - 48))%nat with (nat_of_ascii c) by lia.
  apply ascii_nat_embedding.
Qed.

Lemma getnum_two (a b : ascii) (r : string) (fixed : bool) :
  is_digit a = true -> is_digit b = true ->
  getnum (String a (String b r)) fixed = Ok (digit_val a * 10 + digit_val b, r).
Proof. intros Ha Hb. unfold getnum. rewrite Ha, Hb. reflexivity. Qed.

Lemma parse_year_four (a b c d : ascii) (r : string) :
  is_digit a = true -> is_digit b = true -> is_digit c = true -> is_digit d = true ->
  parse_year (String a (String b (String c (String d r)))) =
  Ok (((digit_val a * 10 + digit_val b) * 10 + digit_val c) * 10 + digit_val d, r).
Proof.
  intros Ha Hb Hc Hd. unfold parse_year. rewrite Ha, Hb, Hc, Hd. cbn [andb].
  unfold digits_value. cbn [fold_left]. do 2 f_equal; lia.
Qed.

Ltac hyp_ifs H :=
  repeat match type of H with
         | context [if ?b then _ else _] =>
             let E := fresh "E" in destruct b eqn:E; [discriminate H|]
         end.

Lemma Parse_timestamp_text c1 c2 c3 c4 c5 c6 c7 c8 c9 c10 c11 c12 c13 c14 t :
  Forall (fun c => is_digit c = true) [c1; c2; c3; c4; c5; c6; c7; c8; c9; c10; c11; c12; c13; c14] ->
  Parse_RFC3339 (timestamp_text c1 c2 c3 c4 c5 c6 c7 c8 c9 c10 c11 c12 c13 c14 "") = Ok t ->
  Format_RFC3339 t = timestamp_text c1 c2 c3 c4 c5 c6 c7 c8 c9 c10 c11 c12 c13 c14 "".
Proof.
  intros Hd HP.
  rewrite !List.Forall_cons_iff in Hd. decompose [and] Hd. clear Hd.
  unfold Parse_RFC3339, timestamp_text in HP.
  rewrite parse_year_four in HP by assumption. cbn -[getnum] in HP.
  rewrite getnum_two in HP by assumption. cbn -[getnum] in HP. hyp_ifs HP.
  rewrite getnum_two in HP by assumption. cbn -[getnum] in HP.
  rewrite getnum_two in HP by assumption. cbn -[getnum] in HP. hyp_ifs HP.
  rewrite getnum_two in HP by assumption. cbn -[getnum] in HP. hyp_ifs HP.
  rewrite getnum_two in HP by assumption. cbn -[getnum] in HP. hyp_ifs HP.
  injection HP as <-.
  pose proof (digit_val_bounds c1 H). pose proof (digit_val_bounds c2 H1).
  pose proof (digit_val_bounds c3 H0). pose proof (digit_val_bounds c4 H2).
  pose proof (digit_val_bounds c5 H3). pose proof (digit_val_bounds c6 H4).
  pose proof (digit_val_bounds c7 H5). pose proof (digit_val_bounds c8 H6).
  pose proof (digit_val_bounds c9 H7). pose proof (digit_val_bounds c10 H8).
  pose proof (digit_val_bounds c11 H9). pose proof (digit_val_bounds c12 H10).
  pose proof (digit_val_bounds c13 H11). pose proof (digit_val_bounds c14 H12).
  remember (((digit_val c1 * 10 + digit_val c2) * 10 + digit_val c3) * 10 + digit_val c4) as y eqn:Hy.
  remember (digit_val c5 * 10 + digit_val c6) as m eqn:Hm.
  remember (digit_val c7 * 10 + digit_val c8) as d eqn:Hdd.
  remember (digit_val c9 * 10 + digit_val c10) as hh eqn:Hh.
  remember (digit_val c11 * 10 + digit_val c12) as mi eqn:Hmi.
  remember (digit_val c13 * 10 + digit_val c14) as ss eqn:Hss.
  rewrite !orb_false_iff, ?Z.leb_gt, ?Z.ltb_ge in E, E0, E1, E2, E3.
  pose proof (days_in_month_le y m).
  remember (days_from_civil y m d * 86400 + hh * 3600 + mi * 60 + ss) as t eqn:Ht.
  unfold Format_RFC3339. time_facts t.
  replace (t / 86400) with (days_from_civil y m d) by lia.
  replace (t mod 86400) with (hh * 3600 + mi * 60 + ss) by lia.
  rewrite civil_from_days_from_civil by lia.
  pose proof (Z.div_mod (hh * 3600 + mi * 60 + ss) 3600 ltac:(lia)).
  pose proof (Z.mod_pos_bound (hh * 3600 + mi * 60 + ss) 3600 ltac:(lia)).
  replace ((hh * 3600 + mi * 60 + ss) / 3600) with hh by lia.
  replace ((hh * 3600 + mi * 60 + ss) mod 3600) with (mi * 60 + ss) by lia.
  pose proof (Z.div_mod (mi * 60 + ss) 60 ltac:(lia)).
  pose proof (Z.mod_pos_bound (mi * 60 + ss) 60 ltac:(lia)).
  pose proof (Z.div_mod (hh * 3600 + mi * 60 + ss) 60 ltac:(lia)).
  pose proof (Z.mod_pos_bound (hh * 3600 + mi * 60 + ss) 60 ltac:(lia)).
  replace ((mi * 60 + ss) / 60) with mi by lia.
  replace ((hh * 3600 + mi * 60 + ss) mod 60) with ss by lia.
  rewrite appendInt_4, !appendInt_2 by lia.
  repeat rewrite ?string_append_cons, ?string_append_empty_l.
  div10_facts y. digit_bounds m. digit_bounds d. digit_bounds hh. digit_bounds mi. digit_bounds ss.
  replace (y / 10 / 10 / 10) with (digit_val c1) by lia.
  replace (y / 10 / 10 mod 10) with (digit_val c2) by lia.
  replace (y / 10 mod 10) with (digit_val c3) by lia.
  replace (y mod 10) with (digit_val c4) by lia.
  replace (m / 10) with (digit_val c5) by lia. replace (m mod 10) with (digit_val c6) by lia.
  replace (d / 10) with (digit_val c7) by lia. replace (d mod 10) with (digit_val c8) by lia.
  replace (hh / 10) with (digit_val c9) by lia. replace (hh mod 10) with (digit_val c10) by lia.
  replace (mi / 10) with (digit_val c11) by lia. replace (mi mod 10) with (digit_val c12) by lia.
  replace (ss / 10) with (digit_val c13) by lia. replace (ss mod 10) with (digit_val c14) by lia.
  rewrite !digit_char_val by assumption. reflexivity.
Qed.

Lemma Format_RFC3339_text (t : Z) : 0 <= t < max_time ->
  exists c1 c2 c3 c4 c5 c6 c7 c8 c9 c10 c11 c12 c13 c14,
    Format_RFC3339 t = timestamp_text c1 c2 c3 c4 c5 c6 c7 c8 c9 c10 c11 c12 c13 c14 "" /\
    Forall (fun c => is_digit c = true) [c1; c2; c3; c4; c5; c6; c7; c8; c9; c10; c11; c12; c13; c14].
Proof.
  intros Ht. destruct (FindString_Format_RFC3339 t Ht) as [HF Hne].
  rewrite <- HF. apply FindString_result. rewrite HF. exact Hne.
Qed.

Lemma timestamp_text_app c1 c2 c3 c4 c5 c6 c7 c8 c9 c10 c11 c12 c13 c14 (rest : string) :
  (timestamp_text c1 c2 c3 c4 c5 c6 c7 c8 c9 c10 c11 c12 c13 c14 "" ++ rest)%string =
  timestamp_text c1 c2 c3 c4 c5 c6 c7 c8 c9 c10 c11 c12 c13 c14 rest.
Proof. unfold timestamp_text. repeat rewrite string_append_cons. reflexivity. Qed.

Lemma FindString_timestamp_text c1 c2 c3 c4 c5 c6 c7 c8 c9 c10 c11 c12 c13 c14 (rest : string) :
  Forall (fun c => is_digit c = true) [c1; c2; c3; c4; c5; c6; c7; c8; c9; c10; c11; c12; c13; c14] ->
  FindString (timestamp_text c1 c2 c3 c4 c5 c6 c7 c8 c9 c10 c11 c12 c13 c14 rest) =
  timestamp_text c1 c2 c3 c4 c5 c6 c7 c8 c9 c10 c11 c12 c13 c14 "".
Proof.
  intros Hd. rewrite !List.Forall_cons_iff in Hd. decompose [and] Hd. clear Hd.
  unfold timestamp_text. cbn [FindString]. unfold timestamp_regexp. cbn [match_prefix].
  repeat match goal with H : is_digit _ = true |- _ => rewrite H; clear H end.
  cbn. destruct rest; reflexivity.
Qed.

(** X: writing a secret twice under the same name leaves the store as
    writing it once with the later time and value. *)
Theorem WriteSecret_overwrites (store : gmap string SecretEntry) (t1 t2 : Z) (name v1 v2 : string) :
  Manager_WriteSecret (snd (Manager_WriteSecret store t1 name v1)) t2 name v2 =
  Manager_WriteSecret store t2 name v2.
Proof.
  rewrite !Manager_WriteSecret_stores. cbn [snd]. rewrite insert_insert_eq. reflexivity.
Qed.

(** X: [GetLastUpdated] fails with a not-found error exactly when the
    store has no secret under the name. *)
Theorem GetLastUpdated_not_found_iff (store : gmap string SecretEntry) (name : string) :
  (exists e, Manager_GetLastUpdated store name = Err e /\ is_not_found e = true) <->
  store !! name = None.
Proof.
  unfold Manager_GetLastUpdated, DescribeSecret. split.
  - intros [e [He Hnf]]. destruct (store !! name) as [entry|]; [|reflexivity].
    exfalso. destruct (String.eqb (FindString (StringValue (se_description entry))) "").
    + injection He as <-. discriminate.
    + destruct (Parse_RFC3339 (FindString (StringValue (se_description entry)))).
      * discriminate.
      * injection He as <-. discriminate.
  - intros ->. eexists. split; [reflexivity|reflexivity].
Qed.

(** X: a time returned by [GetLastUpdated] prints back, in RFC 3339,
    to exactly the timestamp found in the secret's description. *)
Theorem GetLastUpdated_canonical (store : gmap string SecretEntry) (name : string) (t : Z) :
  Manager_GetLastUpdated store name = Ok t ->
  exists entry, store !! name = Some entry /\
    Format_RFC3339 t = FindString (StringValue (se_description entry)).
Proof.
  unfold Manager_GetLastUpdated, DescribeSecret. intros H.
  destruct (store !! name) as [entry|]; [|discriminate].
  exists entry. split; [reflexivity|].
  destruct (String.eqb_spec (FindString (StringValue (se_description entry))) "") as [|Hne];
    [discriminate|].
  destruct (Parse_RFC3339 (FindString (StringValue (se_description entry)))) as [t'|] eqn:HP;
    [|discriminate].
  injection H as ->.
  destruct (FindString_result _ Hne)
    as (c1 & c2 & c3 & c4 & c5 & c6 & c7 & c8 & c9 & c10 & c11 & c12 & c13 & c14 & Hs & Hd).
  rewrite Hs in HP |- *. exact (Parse_timestamp_text _ _ _ _ _ _ _ _ _ _ _ _ _ _ t Hd HP).
Qed.

Lemma GetLastUpdated_canonical_witness :
  Manager_GetLastUpdated ex_stamped_secrets "platform/svc" = Ok 1709210096 /\
  exists entry, ex_stamped_secrets !! "platform/svc" = Some entry /\
    Format_RFC3339 1709210096 = FindString (StringValue (se_description entry)).
Proof.
  assert (H : Manager_GetLastUpdated ex_stamped_secrets "platform/svc" = Ok 1709210096)
    by (vm_compute; reflexivity).
  split; [exact H|]. exact (GetLastUpdated_canonical _ _ _ H).
Defined.

(** X: a description holding an RFC 3339 stamp of a time before year
    10000, preceded by text without digits, is read back as that time. *)
Theorem GetLastUpdated_reads_stamp (store : gmap string SecretEntry) (name prefix rest : string)
  (t : Z) (value : option string) :
  0 <= t < max_time ->
  forallb (fun c => negb (is_digit c)) (list_ascii_of_string prefix) = true ->
  store !! name = Some (MkSecretEntry (Some (prefix ++ Format_RFC3339 t ++ rest)) value) ->
  Manager_GetLastUpdated store name = Ok t.
Proof.
  intros Ht Hp Hs.
  assert (Hp' : List.Forall (fun c => is_digit c = false) (list_ascii_of_string prefix)).
  { apply List.Forall_forall. intros c Hc. rewrite forallb_forall in Hp.
    specialize (Hp c Hc). destruct (is_digit c); [discriminate|reflexivity]. }
  destruct (Format_RFC3339_text t Ht)
    as (c1 & c2 & c3 & c4 & c5 & c6 & c7 & c8 & c9 & c10 & c11 & c12 & c13 & c14 & HF & Hd).
  unfold Manager_GetLastUpdated, DescribeSecret. rewrite Hs. cbn [se_description StringValue].
  rewrite FindString_app_no_digit by exact Hp'.
  rewrite HF, timestamp_text_app, FindString_timestamp_text by exact Hd.
  rewrite <- HF, Parse_Format_RFC3339 by exact Ht.
  rewrite HF. reflexivity.
Qed.

Lemma GetLastUpdated_reads_stamp_witness :
  (0 <= 1709210096 < max_time) /\
  forallb (fun c => negb (is_digit c)) (list_ascii_of_string "rotated at ") = true /\
  <["platform/svc" := MkSecretEntry (Some ("rotated at " ++ Format_RFC3339 1709210096 ++ " by hand"))
     None]> ex_secrets !! "platform/svc" =
    Some (MkSecretEntry (Some ("rotated at " ++ Format_RFC3339 1709210096 ++ " by hand")) None) /\
  Manager_GetLastUpdated
    (<["platform/svc" := MkSecretEntry (Some ("rotated at " ++ Format_RFC3339 1709210096 ++ " by hand"))
       None]> ex_secrets) "platform/svc" = Ok 1709210096.
Proof.
  assert (H1 : 0 <= 1709210096 < max_time) by (unfold max_time; lia).
  assert (H2 : forallb (fun c => negb (is_digit c)) (list_ascii_of_string "rotated at ") = true)
    by reflexivity.
  assert (H3 : <["platform/svc" := MkSecretEntry (Some ("rotated at " ++ Format_RFC3339 1709210096 ++ " by hand"))
     None]> ex_secrets !! "platform/svc" =
    Some (MkSecretEntry (Some ("rotated at " ++ Format_RFC3339 1709210096 ++ " by hand")) None))
    by (vm_compute; reflexivity).
  split; [exact H1|]. split; [exact H2|]. split; [exact H3|].
  exact (GetLastUpdated_reads_stamp _ "platform/svc" "rotated at " " by hand" 1709210096 None H1 H2 H3).
Defined.

(** The traces [rotate_key] can produce. *)
Lemma rotate_key_trace (B : Backend) org kp title repo oldKey w :
  let tr := snd (rotate_key B org kp title repo oldKey w) in
  tr = [EGenerateKeyPair title false; EWarn "failed to generate new key pair"] \/
  (exists public, tr =
     [EGenerateKeyPair title true;
      ECreateKey org (repo_name repo) (repo_read_only repo) title public false;
      EWarn "failed to create key on github"]) \/
  (exists private public, tr =
     [EGenerateKeyPair title true;
      ECreateKey org (repo_name repo) (repo_read_only repo) title public true;
      EWriteSecret kp private false; EWarn "failed to write secret key"]) \/
  (exists private public, oldKey = None /\ tr =
     [EGenerateKeyPair title true;
      ECreateKey org (repo_name repo) (repo_read_only repo) title public true;
      EWriteSecret kp private true]) \/
  (exists private public k ok, oldKey = Some k /\ tr =
     ([EGenerateKeyPair title true;
       ECreateKey org (repo_name repo) (repo_read_only repo) title public true;
       EWriteSecret kp private true; ESleep 1;
       EDeleteKey org (repo_name repo) (key_id k) ok] ++
      (if ok then [] else [EWarn "failed to delete old github key"]))%list).
Proof.
  unfold rotate_key, bind, GenerateKeyPair, CreateKey, WriteSecret, time_sleep,
    DeleteKey, warn, ret.
  destruct (b_generate_key_pair B title w) as [[[private public]|e] w2];
    [|left; reflexivity].
  destruct (b_create_key B org (repo_name repo) (repo_read_only repo) title public w2)
    as [[[]|e] w3];
    [|right; left; exists public; reflexivity].
  destruct (b_write_secret B kp private w3) as [[[]|e] w4];
    [|right; right; left; exists private, public; reflexivity].
  destruct oldKey as [k|].
  - cbn.
    destruct (b_delete_key B org (repo_name repo) (key_id k) (b_sleep B 1 w4)) as [[[]|e] w5];
      right; right; right; right; exists private, public, k;
      [exists true | exists false]; split; reflexivity.
  - right; right; right; left. exists private, public. split; reflexivity.
Qed.

(** The key loop only looks up the secret at the key path and warns. *)
Lemma scan_keys_events (B : Backend) kp title repo keys :
  forall oldKey w,
  Forall (fun ev => match ev with EGetLastUpdated n _ => n = kp | EWarn _ => True | _ => False end)
    (snd (scan_keys B kp title repo oldKey keys w)).
Proof.
  induction keys as [|key keys IH]; intros oldKey w; simpl; [constructor|].
  destruct (String.eqb (key_title key) title); [|apply IH].
  destruct (read_only_changed key repo); [constructor|].
  unfold bind, GetLastUpdated.
  destruct (b_get_last_updated B kp w) as [t|e].
  - unfold time_now, ret. destruct (b_now B w - seven_days <? t).
    + simpl. repeat constructor.
    + specialize (IH (Some key) w).
      destruct (scan_keys B kp title repo (Some key) keys w) as [[d w'] tr].
      simpl in *. constructor; [reflexivity|exact IH].
  - unfold ret, warn, bind. destruct (is_not_found e); simpl; repeat constructor.
Qed.

(** A repository's trace: either nothing mutating happens, or the keys
    were listed, the key loop ran, and a rotation followed. *)
Lemma process_repo_trace (B : Backend) team org keyT titleT repo w :
  Forall (fun ev => is_mutating ev = false) (snd (process_repo B team org keyT titleT repo w)) \/
  exists keyPath title keys oldKey pre,
    template_String (NewTemplate team (repo_name repo) org keyT) = Ok keyPath /\
    template_String (NewTemplate team (repo_name repo) org titleT) = Ok title /\
    b_list_keys B org (repo_name repo) w = Ok keys /\
    scan_keys B keyPath title repo None keys w = (Rotate oldKey, w, pre) /\
    Forall (fun ev => scan_event ev = true) pre /\
    snd (process_repo B team org keyT titleT repo w) =
      EListKeys org (repo_name repo) true :: (pre ++ snd (rotate_key B org keyPath title repo oldKey w))%list.
Proof.
  destruct (template_String (NewTemplate team (repo_name repo) org keyT)) as [keyPath|e] eqn:Hk;
    [|left; unfold process_repo; rewrite Hk; repeat constructor].
  destruct (template_String (NewTemplate team (repo_name repo) org titleT)) as [title|e] eqn:Ht;
    [|left; unfold process_repo; rewrite Hk, Ht; repeat constructor].
  destruct (b_list_keys B org (repo_name repo) w) as [keys|e] eqn:Hl;
    [|left; unfold process_repo, bind, ListKeys; rewrite Hk, Ht, Hl; simpl; repeat constructor].
  pose proof (scan_keys_inv B keyPath title repo keys None w) as Hinv.
  destruct (scan_keys B keyPath title repo None keys w) as [[d w1] t1] eqn:Hs.
  destruct Hinv as [-> [Hf _]].
  destruct d as [|oldKey].
  - left. rewrite (process_repo_unfold B team org keyT titleT repo keyPath title keys w Hk Ht Hl).
    rewrite Hs. simpl. rewrite app_nil_r. constructor; [reflexivity|].
    apply scan_events_not_mutating. exact Hf.
  - right. exists keyPath, title, keys, oldKey, t1.
    do 5 (split; [assumption || reflexivity|]).
    rewrite (process_repo_rotates B team org keyT titleT repo keyPath title keys w t1 oldKey Hk Ht Hl Hs).
    destruct (rotate_key B org keyPath title repo oldKey w) as [[x w'] tr]. reflexivity.
Qed.

(** The trace of a repository whose templates resolve. *)
Lemma process_repo_shape (B : Backend) team org keyT titleT repo keyPath title w :
  template_String (NewTemplate team (repo_name repo) org keyT) = Ok keyPath ->
  template_String (NewTemplate team (repo_name repo) org titleT) = Ok title ->
  (exists e, b_list_keys B org (repo_name repo) w = Err e /\
     snd (process_repo B team org keyT titleT repo w) =
       [EListKeys org (repo_name repo) false; EWarn "failed to list github keys"]) \/
  (exists keys d pre, b_list_keys B org (repo_name repo) w = Ok keys /\
     scan_keys B keyPath title repo None keys w = (d, w, pre) /\
     Forall (fun ev => match ev with EGetLastUpdated n _ => n = keyPath | EWarn _ => True | _ => False end) pre /\
     snd (process_repo B team org keyT titleT repo w) =
       EListKeys org (repo_name repo) true ::
         (pre ++ match d with
                 | Skip => []
                 | Rotate oldKey => snd (rotate_key B org keyPath title repo oldKey w)
                 end)%list).
Proof.
  intros Hk Ht.
  destruct (b_list_keys B org (repo_name repo) w) as [keys|e] eqn:Hl.
  - right. pose proof (scan_keys_inv B keyPath title repo keys None w) as Hinv.
    pose proof (scan_keys_events B keyPath title repo keys None w) as Hev.
    destruct (scan_keys B keyPath title repo None keys w) as [[d w1] pre] eqn:Hs.
    destruct Hinv as [-> _].
    exists keys, d, pre. split; [reflexivity|]. split; [exact Hs|]. split; [exact Hev|].
    clear Hev.
    rewrite (process_repo_unfold B team org keyT titleT repo keyPath title keys w Hk Ht Hl), Hs.
    destruct d as [|oldKey]; [reflexivity|].
    destruct (rotate_key B org keyPath title repo oldKey w) as [[x w'] tr]. reflexivity.
  - left. exists e. split; [reflexivity|].
    unfold process_repo. rewrite Hk, Ht. unfold bind, ListKeys. rewrite Hl. reflexivity.
Qed.

Lemma app_cons_unique {A : Type} (x : A) (a b : list A) :
  ~ In x a -> ~ In x b -> forall l1 l2, (l1 ++ x :: l2)%list = (a ++ x :: b)%list -> l1 = a /\ l2 = b.
Proof.
  induction a as [|y a IH]; intros Ha Hb l1 l2 H; destruct l1 as [|z l1]; simpl in H.
  - injection H as <-. split; reflexivity.
  - injection H as -> H. exfalso. apply Hb. rewrite <- H. apply in_or_app. right. left. reflexivity.
  - injection H as -> H. exfalso. apply Ha. left. reflexivity.
  - injection H as -> H. simpl in Ha.
    destruct (IH (fun h => Ha (or_intror h)) Hb l1 l2 H) as [-> ->]. split; reflexivity.
Qed.

Lemma filter_scan_nil (f : Event -> bool) (pre : list Event) P :
  (forall ev, P ev -> f ev = false) -> Forall P pre -> List.filter f pre = [].
Proof.
  intros Hf HP. induction HP as [|ev pre Hev HP IH]; [reflexivity|].
  simpl. rewrite (Hf ev Hev). exact IH.
Qed.

(** X: every call of a repository's iteration goes to that repository,
    its secret path and its key title. *)
Theorem process_repo_targets (B : Backend) team org keyT titleT repo keyPath title w :
  template_String (NewTemplate team (repo_name repo) org keyT) = Ok keyPath ->
  template_String (NewTemplate team (repo_name repo) org titleT) = Ok title ->
  Forall (event_targets org (repo_name repo) (repo_read_only repo) keyPath title)
    (snd (process_repo B team org keyT titleT repo w)).
Proof.
  intros Hk Ht.
  destruct (process_repo_shape B team org keyT titleT repo keyPath title w Hk Ht)
    as [[e [_ ->]]|[keys [d [pre [_ [_ [Hpre ->]]]]]]].
  - repeat constructor.
  - constructor; [split; reflexivity|]. apply List.Forall_app. split.
    + eapply List.Forall_impl; [|exact Hpre]. intros [] H; simpl; tauto.
    + destruct d as [|oldKey]; [constructor|].
      destruct (rotate_key_trace B org keyPath title repo oldKey w)
        as [->|[[pub ->]|[[priv [pub ->]]|[[priv [pub [_ ->]]]|[priv [pub [k [ok [_ ->]]]]]]]]];
        [..|destruct ok]; simpl; repeat constructor.
Qed.

Lemma process_repo_targets_witness :
  template_String (NewTemplate ex_team (repo_name ex_repo) ex_org ex_key_template) = Ok "platform/svc" /\
  template_String (NewTemplate ex_team (repo_name ex_repo) ex_org ex_title_template) = Ok ex_title /\
  Forall (event_targets ex_org "svc" false "platform/svc" ex_title)
    (snd (process_repo (sim_backend [ex_repo] ex_keys_duplicate (Ok 0)) ex_team ex_org
            ex_key_template ex_title_template ex_repo 10000000)).
Proof.
  split; [vm_compute; reflexivity|]. split; [vm_compute; reflexivity|].
  apply (process_repo_targets (sim_backend [ex_repo] ex_keys_duplicate (Ok 0)) ex_team ex_org
           ex_key_template ex_title_template ex_repo "platform/svc" ex_title 10000000);
    vm_compute; reflexivity.
Defined.

(** X: a repository's iteration registers at most one new key and
    deletes at most one old key. *)
Theorem process_repo_at_most_one_create_delete (B : Backend) team org keyT titleT repo w :
  let tr := snd (process_repo B team org keyT titleT repo w) in
  (List.length (List.filter (fun ev => match ev with ECreateKey _ _ _ _ _ _ => true | _ => false end) tr) <= 1)%nat /\
  (List.length (List.filter (fun ev => match ev with EDeleteKey _ _ _ _ => true | _ => false end) tr) <= 1)%nat.
Proof.
  intros tr. subst tr.
  destruct (process_repo_trace B team org keyT titleT repo w)
    as [Hnm|[keyPath [title [keys [oldKey [pre [_ [_ [_ [_ [Hpre ->]]]]]]]]]]].
  - assert (H1 : forall f : Event -> bool, (forall ev, is_mutating ev = false -> f ev = false) ->
                 List.filter f (snd (process_repo B team org keyT titleT repo w)) = [])
      by (intros f Hf; exact (filter_scan_nil f _ _ Hf Hnm)).
    rewrite !H1; [simpl; lia| |]; intros [] H; simpl in *; congruence.
  - simpl. rewrite !List.filter_app.
    assert (H1 : forall f : Event -> bool, (forall ev, scan_event ev = true -> f ev = false) ->
                 List.filter f pre = [])
      by (intros f Hf; exact (filter_scan_nil f _ _ Hf Hpre)).
    rewrite !H1; [| intros [] H; simpl in *; congruence ..].
    destruct (rotate_key_trace B org keyPath title repo oldKey w)
      as [->|[[pub ->]|[[priv [pub ->]]|[[priv [pub [_ ->]]]|[priv [pub [k [ok [_ ->]]]]]]]]];
      [..|destruct ok]; simpl; lia.
Qed.

(** X: in a repository's trace, every write of the key secret comes
    right after a successful registration of a new key with the
    repository's flag and the resolved title. *)
Theorem process_repo_write_after_create (B : Backend) team org keyT titleT repo w :
  forall pre post kp s ok,
  snd (process_repo B team org keyT titleT repo w) = (pre ++ EWriteSecret kp s ok :: post)%list ->
  exists pre' title public,
    template_String (NewTemplate team (repo_name repo) org titleT) = Ok title /\
    pre = (pre' ++ [ECreateKey org (repo_name repo) (repo_read_only repo) title public true])%list.
Proof.
  intros pre post kp s ok Htr.
  destruct (process_repo_trace B team org keyT titleT repo w)
    as [Hnm|[keyPath [title [keys [oldKey [pre0 [_ [Ht [_ [_ [Hpre Heq]]]]]]]]]]].
  - rewrite Htr, List.Forall_app in Hnm. destruct Hnm as [_ Hnm].
    inversion Hnm; discriminate.
  - rewrite Htr in Heq. clear Htr.
    assert (Hn : ~ In (EWriteSecret kp s ok) (EListKeys org (repo_name repo) true :: pre0)).
    { intros [H|H]; [discriminate|].
      rewrite List.Forall_forall in Hpre. specialize (Hpre _ H). discriminate. }
    destruct (rotate_key_trace B org keyPath title repo oldKey w)
      as [Hr|[[pub Hr]|[[priv [pub Hr]]|[[priv [pub [_ Hr]]]|[priv [pub [k [okd [_ Hr]]]]]]]]];
      rewrite Hr in Heq.
    + assert (Hin : In (EWriteSecret kp s ok)
        (EListKeys org (repo_name repo) true :: pre0 ++ [EGenerateKeyPair title false; EWarn "failed to generate new key pair"])%list).
      { rewrite <- Heq. apply in_or_app. right. left. reflexivity. }
      destruct Hin as [H|H]; [discriminate|]. apply in_app_or in H.
      destruct H as [H|H]; [exfalso; apply Hn; right; exact H|]. simpl in H. intuition discriminate.
    + assert (Hin : In (EWriteSecret kp s ok)
        (EListKeys org (repo_name repo) true :: pre0 ++
          [EGenerateKeyPair title true; ECreateKey org (repo_name repo) (repo_read_only repo) title pub false;
           EWarn "failed to create key on github"])%list).
      { rewrite <- Heq. apply in_or_app. right. left. reflexivity. }
      destruct Hin as [H|H]; [discriminate|]. apply in_app_or in H.
      destruct H as [H|H]; [exfalso; apply Hn; right; exact H|]. simpl in H. intuition discriminate.
    + exists ((EListKeys org (repo_name repo) true :: pre0) ++ [EGenerateKeyPair title true])%list,
        title, pub. split; [exact Ht|].
      assert (Hin : In (EWriteSecret kp s ok)
        (EListKeys org (repo_name repo) true :: pre0 ++
          [EGenerateKeyPair title true; ECreateKey org (repo_name repo) (repo_read_only repo) title pub true;
           EWriteSecret keyPath priv false; EWarn "failed to write secret key"])%list).
      { rewrite <- Heq. apply in_or_app. right. left. reflexivity. }
      destruct Hin as [H|H]; [discriminate|]. apply in_app_or in H.
      destruct H as [H|H]; [exfalso; apply Hn; right; exact H|].
      simpl in H. destruct H as [H|[H|[H|[H|[]]]]]; try discriminate.
      injection H as H1 H2 H3; subst kp s ok.
      refine (proj1 (app_cons_unique _ _ [EWarn "failed to write secret key"] _ _ pre post _)).
      * rewrite <- app_assoc. intros Hi. apply in_app_or in Hi.
        destruct Hi as [Hi|Hi]; [exact (Hn Hi)|]. simpl in Hi. intuition discriminate.
      * simpl. intuition discriminate.
      * rewrite Heq. simpl. rewrite <- !app_assoc. reflexivity.
    + exists ((EListKeys org (repo_name repo) true :: pre0) ++ [EGenerateKeyPair title true])%list,
        title, pub. split; [exact Ht|].
      assert (Hin : In (EWriteSecret kp s ok)
        (EListKeys org (repo_name repo) true :: pre0 ++
          [EGenerateKeyPair title true; ECreateKey org (repo_name repo) (repo_read_only repo) title pub true;
           EWriteSecret keyPath priv true])%list).
      { rewrite <- Heq. apply in_or_app. right. left. reflexivity. }
      destruct Hin as [H|H]; [discriminate|]. apply in_app_or in H.
      destruct H as [H|H]; [exfalso; apply Hn; right; exact H|].
      simpl in H. destruct H as [H|[H|[H|[]]]]; try discriminate.
      injection H as H1 H2 H3; subst kp s ok.
      refine (proj1 (app_cons_unique _ _ [] _ _ pre post _)).
      * rewrite <- app_assoc. intros Hi. apply in_app_or in Hi.
        destruct Hi as [Hi|Hi]; [exact (Hn Hi)|]. simpl in Hi. intuition discriminate.
      * simpl. intuition discriminate.
      * rewrite Heq. simpl. rewrite <- !app_assoc. reflexivity.
    + exists ((EListKeys org (repo_name repo) true :: pre0) ++ [EGenerateKeyPair title true])%list,
        title, pub. split; [exact Ht|].
      assert (Hin : In (EWriteSecret kp s ok)
        (EListKeys org (repo_name repo) true :: pre0 ++
          ([EGenerateKeyPair title true; ECreateKey org (repo_name repo) (repo_read_only repo) title pub true;
            EWriteSecret keyPath priv true; ESleep 1; EDeleteKey org (repo_name repo) (key_id k) okd] ++
           (if okd then [] else [EWarn "failed to delete old github key"])))%list).
      { rewrite <- Heq. apply in_or_app. right. left. reflexivity. }
      destruct Hin as [H|H]; [discriminate|]. apply in_app_or in H.
      destruct H as [H|H]; [exfalso; apply Hn; right; exact H|].
      apply in_app_or in H. destruct H as [H|H];
        [|destruct okd; simpl in H; intuition discriminate].
      simpl in H. destruct H as [H|[H|[H|[H|[H|[]]]]]]; try discriminate.
      injection H as H1 H2 H3; subst kp s ok.
      refine (proj1 (app_cons_unique _ _
        ([ESleep 1; EDeleteKey org (repo_name repo) (key_id k) okd] ++
         (if okd then [] else [EWarn "failed to delete old github key"]))%list _ _ pre post _)).
      * rewrite <- app_assoc. intros Hi. apply in_app_or in Hi.
        destruct Hi as [Hi|Hi]; [exact (Hn Hi)|]. simpl in Hi. intuition discriminate.
      * destruct okd; simpl; intuition discriminate.
      * rewrite Heq. simpl. rewrite <- !app_assoc. reflexivity.
Qed.

Lemma process_repo_write_after_create_witness :
  snd (process_repo (sim_backend [ex_repo] ex_keys_single (Ok 0)) ex_team ex_org
         ex_key_template ex_title_template ex_repo 10000000) =
    ([EListKeys ex_org "svc" true; EGetLastUpdated "platform/svc" true;
      EGenerateKeyPair ex_title true; ECreateKey ex_org "svc" false ex_title "public" true] ++
     EWriteSecret "platform/svc" "private" true :: [ESleep 1; EDeleteKey ex_org "svc" 1 true])%list /\
  exists pre' title public,
    template_String (NewTemplate ex_team (repo_name ex_repo) ex_org ex_title_template) = Ok title /\
    [EListKeys ex_org "svc" true; EGetLastUpdated "platform/svc" true;
     EGenerateKeyPair ex_title true; ECreateKey ex_org "svc" false ex_title "public" true] =
    (pre' ++ [ECreateKey ex_org (repo_name ex_repo) (repo_read_only ex_repo) title public true])%list.
Proof.
  assert (H : snd (process_repo (sim_backend [ex_repo] ex_keys_single (Ok 0)) ex_team ex_org
         ex_key_template ex_title_template ex_repo 10000000) =
    ([EListKeys ex_org "svc" true; EGetLastUpdated "platform/svc" true;
      EGenerateKeyPair ex_title true; ECreateKey ex_org "svc" false ex_title "public" true] ++
     EWriteSecret "platform/svc" "private" true :: [ESleep 1; EDeleteKey ex_org "svc" 1 true])%list)
    by (vm_compute; reflexivity).
  split; [exact H|].
  exact (process_repo_write_after_create (sim_backend [ex_repo] ex_keys_single (Ok 0)) ex_team ex_org
           ex_key_template ex_title_template ex_repo 10000000 _ _ _ _ _ H).
Defined.

(** The key the loop settles on when every lookup is stale and no flag
    changed: the last listed key with the title. *)
Lemma scan_keys_all_stale (B : Backend) kp title repo t w keys :
  b_get_last_updated B kp w = Ok t ->
  t <= b_now B w - seven_days ->
  forallb (fun k => negb (String.eqb (key_title k) title) || negb (read_only_changed k repo)) keys = true ->
  forall oldKey,
  fst (fst (scan_keys B kp title repo oldKey keys w)) =
    Rotate (fold_left (fun acc k => if String.eqb (key_title k) title then Some k else acc) keys oldKey).
Proof.
  intros Hg Hs. induction keys as [|key keys IH]; intros Hall oldKey; [reflexivity|].
  simpl in Hall. apply andb_true_iff in Hall. destruct Hall as [Hk Hall].
  simpl. destruct (String.eqb (key_title key) title) eqn:E; simpl in Hk.
  - destruct (read_only_changed key repo); [discriminate|].
    unfold bind, GetLastUpdated, time_now. rewrite Hg.
    replace (b_now B w - seven_days <? t) with false by (symmetry; apply Z.ltb_ge; lia).
    specialize (IH Hall (Some key)).
    destruct (scan_keys B kp title repo (Some key) keys w) as [[d w1] tr]. exact IH.
  - apply IH. exact Hall.
Qed.

(** X: when the secret is stale and no key with the title has a changed
    flag, the only key the iteration may delete is the last listed key
    with the title; earlier duplicates are left in place. *)
Theorem stale_duplicates_delete_last (B : Backend) team org keyT titleT repo keyPath title
  keys t w :
  template_String (NewTemplate team (repo_name repo) org keyT) = Ok keyPath ->
  template_String (NewTemplate team (repo_name repo) org titleT) = Ok title ->
  b_list_keys B org (repo_name repo) w = Ok keys ->
  b_get_last_updated B keyPath w = Ok t ->
  t <= b_now B w - seven_days ->
  forallb (fun k => negb (String.eqb (key_title k) title) || negb (read_only_changed k repo)) keys = true ->
  forall id ok, In (EDeleteKey org (repo_name repo) id ok) (snd (process_repo B team org keyT titleT repo w)) ->
  Some id = option_map key_id
    (fold_left (fun acc k => if String.eqb (key_title k) title then Some k else acc) keys None).
Proof.
  intros Hk Ht Hl Hg Hs Hall id ok Hin.
  pose proof (scan_keys_all_stale B keyPath title repo t w keys Hg Hs Hall None) as Hd.
  destruct (process_repo_shape B team org keyT titleT repo keyPath title w Hk Ht)
    as [[e [Hl' _]]|[keys' [d [pre [Hl' [Hsc [Hpre Htr]]]]]]]; [congruence|].
  rewrite Hl in Hl'. injection Hl' as <-. rewrite Hsc in Hd. simpl in Hd. subst d.
  rewrite Htr in Hin. destruct Hin as [Hin|Hin]; [discriminate|].
  apply in_app_or in Hin. destruct Hin as [Hin|Hin].
  - rewrite List.Forall_forall in Hpre. specialize (Hpre _ Hin). contradiction.
  - destruct (rotate_key_trace B org keyPath title repo
                (fold_left (fun acc k => if String.eqb (key_title k) title then Some k else acc) keys None) w)
      as [Hr|[[pub Hr]|[[priv [pub Hr]]|[[priv [pub [_ Hr]]]|[priv [pub [k [okd [Ho Hr]]]]]]]]];
      rewrite Hr in Hin; simpl in Hin; try (intuition discriminate).
    rewrite Ho. simpl.
    destruct okd; simpl in Hin; intuition congruence.
Qed.

Lemma stale_duplicates_delete_last_witness :
  In (EDeleteKey ex_org "svc" 2 true)
    (snd (process_repo (sim_backend [ex_repo] ex_keys_duplicate (Ok 0)) ex_team ex_org
            ex_key_template ex_title_template ex_repo 10000000)) /\
  Some 2 = option_map key_id
    (fold_left (fun acc k => if String.eqb (key_title k) ex_title then Some k else acc)
       ex_keys_duplicate None).
Proof.
  assert (H : In (EDeleteKey ex_org "svc" 2 true)
    (snd (process_repo (sim_backend [ex_repo] ex_keys_duplicate (Ok 0)) ex_team ex_org
            ex_key_template ex_title_template ex_repo 10000000))) by (vm_compute; tauto).
  split; [exact H|].
  refine (stale_duplicates_delete_last (sim_backend [ex_repo] ex_keys_duplicate (Ok 0)) ex_team
           ex_org ex_key_template ex_title_template ex_repo "platform/svc" ex_title
           ex_keys_duplicate 0 10000000 _ _ _ _ _ _ 2 true H);
    [vm_compute; reflexivity .. | simpl; unfold seven_days; lia | vm_compute; reflexivity].
Defined.

Lemma scan_keys_no_title (B : Backend) kp title repo keys w :
  forallb (fun k => negb (String.eqb (key_title k) title)) keys = true ->
  forall oldKey, scan_keys B kp title repo oldKey keys w = (Rotate oldKey, w, []).
Proof.
  induction keys as [|key keys IH]; intros Hall oldKey; [reflexivity|].
  simpl in Hall. apply andb_true_iff in Hall. destruct Hall as [Hk Hall].
  simpl. apply negb_true_iff in Hk. rewrite Hk. apply IH. exact Hall.
Qed.

(** X: when no listed key carries the title, the iteration reads no
    secret, neither pauses nor deletes anything, and generates a new
    key pair. *)
Theorem no_titled_key_generates (B : Backend) team org keyT titleT repo keyPath title keys w :
  template_String (NewTemplate team (repo_name repo) org keyT) = Ok keyPath ->
  template_String (NewTemplate team (repo_name repo) org titleT) = Ok title ->
  b_list_keys B org (repo_name repo) w = Ok keys ->
  forallb (fun k => negb (String.eqb (key_title k) title)) keys = true ->
  let tr := snd (process_repo B team org keyT titleT repo w) in
  (exists ok, In (EGenerateKeyPair title ok) tr) /\
  Forall (fun ev => match ev with
                    | EGetLastUpdated _ _ | ESleep _ | EDeleteKey _ _ _ _ => False
                    | _ => True
                    end) tr.
Proof.
  intros Hk Ht Hl Hno tr. subst tr.
  rewrite (process_repo_rotates B team org keyT titleT repo keyPath title keys w [] None Hk Ht Hl
             (scan_keys_no_title B keyPath title repo keys w Hno None)).
  destruct (rotate_key_trace B org keyPath title repo None w)
    as [Hr|[[pub Hr]|[[priv [pub Hr]]|[[priv [pub [_ Hr]]]|[priv [pub [k [okd [Ho Hr]]]]]]]]];
    [..|discriminate];
    destruct (rotate_key B org keyPath title repo None w) as [[x w'] tr]; simpl in Hr; subst tr;
    (split; [eexists; simpl; right; left; reflexivity | repeat constructor]).
Qed.

Lemma no_titled_key_generates_witness :
  let tr := snd (process_repo (sim_backend [ex_repo] [MkKey 7 "other-team" None] (Ok 0)) ex_team
                   ex_org ex_key_template ex_title_template ex_repo 10000000) in
  (exists ok, In (EGenerateKeyPair ex_title ok) tr) /\
  Forall (fun ev => match ev with
                    | EGetLastUpdated _ _ | ESleep _ | EDeleteKey _ _ _ _ => False
                    | _ => True
                    end) tr.
Proof.
  exact (no_titled_key_generates (sim_backend [ex_repo] [MkKey 7 "other-team" None] (Ok 0)) ex_team
           ex_org ex_key_template ex_title_template ex_repo "platform/svc" ex_title
           [MkKey 7 "other-team" None] 10000000
           ltac:(vm_compute; reflexivity) ltac:(vm_compute; reflexivity)
           ltac:(vm_compute; reflexivity) ltac:(vm_compute; reflexivity)).
Defined.

(** X: when the repository listing fails after the token was stored,
    the run fails with the wrapped listing error, but the new access
    token has already been written. *)
Theorem New_list_failure_after_token_written (B : Backend) org tokT keyT titleT team w
  tokenPath token e w1 w2 :
  template_String (NewTemplateWithoutRepository team org tokT) = Ok tokenPath ->
  b_create_access_token B org w = (Ok token, w1) ->
  b_write_secret B tokenPath token w1 = (Ok tt, w2) ->
  b_list_repos B w2 = Err e ->
  New B org tokT keyT titleT team w =
  (Err (WrappedError "listing repos" e), w2,
   [ECreateAccessToken org true; EWriteSecret tokenPath token true; EListRepos false;
    EWarn "failed to list repos"]).
Proof.
  intros H Hc Hw Hl. unfold New. rewrite H.
  unfold bind, CreateAccessToken, WriteSecret, List. rewrite Hc, Hw, Hl. reflexivity.
Qed.

Lemma New_list_failure_after_token_written_witness :
  New (list_failing_backend (PlainError "throttled")) ex_org "{{.Team}}/token" ex_key_template
      ex_title_template ex_team 0 =
  (Err (WrappedError "listing repos" (PlainError "throttled")), 0,
   [ECreateAccessToken ex_org true; EWriteSecret "platform/token" "token" true; EListRepos false;
    EWarn "failed to list repos"]).
Proof.
  apply (New_list_failure_after_token_written (list_failing_backend (PlainError "throttled")) ex_org
           "{{.Team}}/token" ex_key_template ex_title_template ex_team 0 "platform/token" "token"
           (PlainError "throttled") 0 0); vm_compute; reflexivity.
Defined.

(** X: [DynamoDBReposLister.List] on a successful scan either returns
    one read-write repository per item, in the scan's order, or panics
    as soon as one item fails to unmarshal; it never returns an error
    for a successful scan. *)
Theorem dynamodb_list_all_or_panic {Item : Type} (UnmarshalMap : Item -> result string)
  (items : list Item) :
  (exists names, Forall2 (fun i n => UnmarshalMap i = Ok n) items names /\
     DynamoDBReposLister_List UnmarshalMap (Ok items) =
       Returned (Ok (List.map (fun n => MkRepo n false) names))) \/
  (exists i e, In i items /\ UnmarshalMap i = Err e /\
     DynamoDBReposLister_List UnmarshalMap (Ok items) = Panicked "Failed to unmarshal Record").
Proof.
  simpl. induction items as [|item items IH].
  - left. exists []. split; [constructor|reflexivity].
  - simpl. destruct (UnmarshalMap item) as [n|e] eqn:Hu.
    + destruct IH as [[names [Hf ->]]|[i [e [Hi [He ->]]]]].
      * left. exists (n :: names). split; [constructor; assumption|reflexivity].
      * right. exists i, e. split; [right; exact Hi|]. split; [exact He|reflexivity].
    + right. exists item, e. split; [left; reflexivity|]. split; [exact Hu|reflexivity].
Qed.

(** X: [GenerateKeyPair] deletes the EC2 key pair exactly when it was
    created, whatever the later decoding steps return, and the result
    does not depend on the outcome of that deletion. *)
Theorem GenerateKeyPair_deferred_delete {W PrivKey PubKey : Type}
  (CreateKeyPair : string -> W -> result (option string) * W)
  (DeleteKeyPair DeleteKeyPair' : string -> W -> result unit * W)
  (pem_Decode : string -> option string)
  (ParsePKCS1PrivateKey : string -> result PrivKey)
  (NewPublicKey : PrivKey -> result PubKey)
  (MarshalAuthorizedKey : PubKey -> string) (title : string) (w : W) :
  snd (Manager_GenerateKeyPair CreateKeyPair DeleteKeyPair pem_Decode ParsePKCS1PrivateKey
         NewPublicKey MarshalAuthorizedKey title w) =
    match fst (CreateKeyPair title w) with
    | Ok _ => [ECreateKeyPair title true; EDeleteKeyPair title]
    | Err _ => [ECreateKeyPair title false]
    end /\
  fst (fst (Manager_GenerateKeyPair CreateKeyPair DeleteKeyPair pem_Decode ParsePKCS1PrivateKey
              NewPublicKey MarshalAuthorizedKey title w)) =
  fst (fst (Manager_GenerateKeyPair CreateKeyPair DeleteKeyPair' pem_Decode ParsePKCS1PrivateKey
              NewPublicKey MarshalAuthorizedKey title w)).
Proof.
  unfold Manager_GenerateKeyPair.
  destruct (CreateKeyPair title w) as [[km|e] w1]; [|split; reflexivity].
  destruct (DeleteKeyPair title w1) as [r2 w2].
  destruct (DeleteKeyPair' title w1) as [r3 w3].
  split; reflexivity.
Qed.

(** X: [GenerateKeyPair] returns empty keys with every error, and
    returns no error only when the key pair was created and its private
    key decoded, parsed and converted; the private key returned is then
    the key material as created. *)
Theorem GenerateKeyPair_results {W PrivKey PubKey : Type}
  (CreateKeyPair : string -> W -> result (option string) * W)
  (DeleteKeyPair : string -> W -> result unit * W)
  (pem_Decode : string -> option string)
  (ParsePKCS1PrivateKey : string -> result PrivKey)
  (NewPublicKey : PrivKey -> result PubKey)
  (MarshalAuthorizedKey : PubKey -> string) (title : string) (w : W) :
  let '(priv, pub, err) :=
    fst (fst (Manager_GenerateKeyPair CreateKeyPair DeleteKeyPair pem_Decode ParsePKCS1PrivateKey
                NewPublicKey MarshalAuthorizedKey title w)) in
  match err with
  | Some _ => priv = "" /\ pub = ""
  | None => exists km w1 block key public,
      CreateKeyPair title w = (Ok km, w1) /\ priv = StringValue km /\
      pem_Decode priv = Some block /\ ParsePKCS1PrivateKey block = Ok key /\
      NewPublicKey key = Ok public /\ pub = MarshalAuthorizedKey public
  end.
Proof.
  unfold Manager_GenerateKeyPair.
  destruct (CreateKeyPair title w) as [[km|e] w1] eqn:Hc; [|split; reflexivity].
  destruct (DeleteKeyPair title w1) as [r2 w2]. simpl.
  destruct (pem_Decode (StringValue km)) as [block|] eqn:Hd; [|split; reflexivity].
  destruct (ParsePKCS1PrivateKey block) as [key|e] eqn:Hp; [|split; reflexivity].
  destruct (NewPublicKey key) as [public|e] eqn:Hn; [|split; reflexivity].
  exists km, w1, block, key, public. repeat split; assumption.
Qed.

(** X: the resolved path or title of [NewTemplate] depends on the
    repository name only through its dot-to-dash form, so repositories
    such as ["a.b"] and ["a-b"] share the same secret path and key
    title. *)
Theorem NewTemplate_dot_collision (team r1 r2 owner text : string) :
  dots_to_dashes r1 = dots_to_dashes r2 ->
  template_String (NewTemplate team r1 owner text) = template_String (NewTemplate team r2 owner text).
Proof.
  intros H. unfold NewTemplate. rewrite !ReplaceAll_dot, H. reflexivity.
Qed.

Lemma NewTemplate_dot_collision_witness :
  dots_to_dashes "a.b" = dots_to_dashes "a-b" /\
  template_String (NewTemplate ex_team "a.b" ex_org ex_key_template) =
  template_String (NewTemplate ex_team "a-b" ex_org ex_key_template).
Proof.
  assert (H : dots_to_dashes "a.b" = dots_to_dashes "a-b") by reflexivity.
  split; [exact H|]. exact (NewTemplate_dot_collision ex_team "a.b" "a-b" ex_org ex_key_template H).
Defined.

Lemma parse_text_step (c : ascii) (r acc : string) :
  ~ (c = "{"%char /\ exists r', r = String "{"%char r') ->
  parse_nodes (String c r) InText acc = parse_nodes r InText (acc ++ String c "").
Proof.
  intros H. destruct c as [[] [] [] [] [] [] [] []]; try reflexivity.
  destruct r as [|c' r']; [reflexivity|].
  destruct c' as [[] [] [] [] [] [] [] []]; try reflexivity.
  exfalso. apply H. split; [reflexivity|]. exists r'. reflexivity.
Qed.

Lemma string_append_assoc (a b c : string) : ((a ++ b) ++ c)%string = (a ++ (b ++ c))%string.
Proof.
  induction a as [|x a IH]; [rewrite !string_append_empty_l; reflexivity|].
  rewrite !string_append_cons, IH. reflexivity.
Qed.

Lemma parse_text_no_open (s : string) : forall acc,
  (forall a b, s <> (a ++ "{{" ++ b)%string) ->
  parse_nodes s InText acc = Ok (text_node (acc ++ s) []).
Proof.
  induction s as [|c r IH]; intros acc H.
  - rewrite string_append_empty_r. reflexivity.
  - rewrite parse_text_step.
    + rewrite IH.
      * rewrite string_append_assoc, string_append_cons, string_append_empty_l. reflexivity.
      * intros a b Hr. apply (H (String c a) b). rewrite Hr, string_append_cons. reflexivity.
    + intros [-> [r' ->]]. apply (H "" r'). rewrite string_append_empty_l. reflexivity.
Qed.

(** X: a template text without the action delimiter ["{{"] resolves to
    itself, whatever the team, owner and repository. *)
Theorem template_without_actions_literal (p : Template) :
  (forall a b, TemplateText p <> (a ++ "{{" ++ b)%string) ->
  template_String p = Ok (TemplateText p).
Proof.
  intros H. unfold template_String. rewrite (parse_text_no_open _ "" H), string_append_empty_l.
  unfold text_node. destruct (String.eqb (TemplateText p) "") eqn:E.
  - apply String.eqb_eq in E. rewrite E. reflexivity.
  - simpl. rewrite string_append_empty_r. reflexivity.
Qed.

Lemma template_without_actions_literal_witness :
  template_String (NewTemplate ex_team "svc" ex_org "concourse/deploy-key") = Ok "concourse/deploy-key".
Proof.
  apply (template_without_actions_literal (NewTemplate ex_team "svc" ex_org "concourse/deploy-key")).
  simpl. intros a b H.
  assert (Hl : forall a b, String.length (a ++ b) = (String.length a + String.length b)%nat).
  { induction a0 as [|x a0 IH]; intros b0; [reflexivity|].
    rewrite string_append_cons. simpl. rewrite IH. reflexivity. }
  do 20 (destruct a as [|? a]; [rewrite string_append_empty_l in H; discriminate H|
           rewrite string_append_cons in H; injection H as _ H]).
  apply (f_equal String.length) in H. rewrite !Hl in H. simpl in H. lia.
Defined.
